(** * Loader and Query Service of the department/people exercise

    A shallow embedding of the two programs of the repository:

    - the Loader script ([main], the create-database script), which fetches
      departments and people from the content API and writes them into the
      SQLite file [hashicorp.sqlite];
    - the HTTP query endpoint ([handler], [src/pages/api/hashicorp.ts]),
      which joins PEOPLE to DEPARTMENTS and filters on the person name.

    Both programs are glue around [better-sqlite3].  The part of the engine
    they exercise is modelled in [Module Sqlite]: two tables kept in
    insertion order, the constraints declared by the two CREATE TABLE
    statements, transactions with rollback, the deferred foreign-key
    counter, the string-literal lexer and the LIKE operator. *)

From Stdlib Require Import List String Ascii Bool ZArith Lia Arith.
From Stdlib Require Import Permutation.
Import ListNotations.
Local Open Scope string_scope.
Local Open Scope list_scope.

Set Implicit Arguments.

(** ** Values received from the content API *)

(** Modelled from the spec: the type declarations [DepartmentNode] and
    [PersonRecord] of [../types] are not part of the sources.  The fields
    are those requested by the GraphQL document and read by the code:
    [department.parent?.id], [person.avatar?.url], [person.department?.name].
    An absent (null or undefined) object is [None]. *)
Record ParentRef := { parent_name : string; parent_id : string }.

Record DepartmentNode := {
  dn_id : string;
  dn_name : string;
  dn_parent : option ParentRef
}.

Record Avatar := { url : option string }.

Record DepartmentRef := { dr_id : option string; dr_name : string }.

Record PersonRecord := {
  pr_id : string;
  pr_name : string;
  pr_title : option string;
  pr_avatar : option Avatar;
  pr_department : option DepartmentRef
}.

(** [type QueryResult]; a list that the API failed to deliver is [None]
    (the code guards the second one with [?.]). *)
Record QueryResult := {
  allDepartments : option (list DepartmentNode);
  allPeople : option (list PersonRecord)
}.

(** ** JavaScript helpers *)

Module Js.

(** [v || null] for [v] a string, null or undefined: every falsy value,
    the empty string included, becomes null. *)
Definition or_null (v : option string) : option string :=
  match v with
  | Some s => if String.eqb s "" then None else Some s
  | None => None
  end.

(** [Array.prototype.join(',')], used when an array is interpolated into
    a template literal. *)
Fixpoint join (l : list string) : string :=
  match l with
  | [] => ""
  | [s] => s
  | s :: rest => (s ++ "," ++ join rest)%string
  end.

Inductive Error :=
| NetworkError          (* executeQuery rejected *)
| TypeError             (* property of undefined, undefined not iterable *)
| SqliteSyntax          (* SQLITE_ERROR: unrecognized token / syntax error *)
| SqliteNoTable         (* SQLITE_ERROR: no such table *)
| ConstraintNotNull     (* SQLITE_CONSTRAINT_NOTNULL *)
| ConstraintPrimaryKey  (* SQLITE_CONSTRAINT_PRIMARYKEY *)
| ConstraintForeignKey  (* SQLITE_CONSTRAINT_FOREIGNKEY *)
| SqliteRuntime.        (* SQLITE_BUSY, SQLITE_IOERR, ... while stepping *)

(** How a call ends: normally with a value, or by throwing. *)
Inductive Result (A : Type) :=
| Ok (a : A)
| Throw (e : Error).
Arguments Ok {A} a.
Arguments Throw {A} e.

End Js.
Import Js.

(** ** The SQLite engine, as far as the two programs use it *)

Module Sqlite.

(** Rows of [DEPARTMENTS (ID, NAME, PARENT)] and of
    [PEOPLE (ID, NAME, AVATAR_URL, DEPARTMENT_ID)].  Columns declared
    NOT NULL hold a string, the others an optional one. *)
Record DeptRow := { D_ID : string; D_NAME : string; D_PARENT : option string }.
Record PersonRow := {
  P_ID : string;
  P_NAME : string;
  P_AVATAR_URL : option string;
  P_DEPARTMENT_ID : string
}.

(** The database file: each table is absent ([None]) until its CREATE
    TABLE ran; rows are kept in insertion (rowid) order. *)
Record Database := {
  DEPARTMENTS : option (list DeptRow);
  PEOPLE : option (list PersonRow)
}.

Definition empty_file : Database := {| DEPARTMENTS := None; PEOPLE := None |}.

(** A connection: the contents it sees, the snapshot taken by BEGIN while
    a transaction is open, the counter of outstanding deferred
    foreign-key violations, and the [foreign_keys] pragma. *)
Record Conn := {
  db : Database;
  tx : option Database;
  deferredCons : Z;
  foreignKeys : bool
}.

Definition connect (file : Database) : Conn :=
  {| db := file; tx := None; deferredCons := 0; foreignKeys := false |}.

Definition inTransaction (c : Conn) : bool :=
  match tx c with Some _ => true | None => false end.

(** What is durable: inside a transaction, the snapshot. *)
Definition committed (c : Conn) : Database :=
  match tx c with Some snap => snap | None => db c end.

(** Calls on a connection: state passing, with exceptions.  An exception
    keeps the state reached so far. *)
Definition M (A : Type) := Conn -> Result A * Conn.

Definition ret {A} (a : A) : M A := fun c => (Ok a, c).
Definition throw {A} (e : Error) : M A := fun c => (Throw e, c).
Definition bind {A B} (m : M A) (k : A -> M B) : M B :=
  fun c => match m c with
           | (Ok a, c') => k a c'
           | (Throw e, c') => (Throw e, c')
           end.

(** [try { m } finally { f }], for an [f] that does not throw. *)
Definition finally {A} (m : M A) (f : Conn -> Conn) : M A :=
  fun c => let '(r, c') := m c in (r, f c').

Declare Scope sql_scope.
Delimit Scope sql_scope with sql.
Notation "x <- m ;; k" := (bind m (fun x => k))
  (at level 61, m at next level, right associativity) : sql_scope.
Notation "m ;;; k" := (bind m (fun _ => k))
  (at level 61, right associativity) : sql_scope.
Local Open Scope sql_scope.

(** *** Schema *)

Definition table_rows {A} (t : option (list A)) : list A :=
  match t with Some rows => rows | None => [] end.

(** [CREATE TABLE IF NOT EXISTS DEPARTMENTS (...)], run in autocommit
    mode: creates the empty table unless it is there. *)
Definition create_departments : M unit := fun c =>
  (Ok tt,
   {| db := {| DEPARTMENTS := Some (table_rows (DEPARTMENTS (db c)));
               PEOPLE := PEOPLE (db c) |};
      tx := tx c; deferredCons := deferredCons c;
      foreignKeys := foreignKeys c |}).

(** [CREATE TABLE IF NOT EXISTS PEOPLE (...)]. *)
Definition create_people : M unit := fun c =>
  (Ok tt,
   {| db := {| DEPARTMENTS := DEPARTMENTS (db c);
               PEOPLE := Some (table_rows (PEOPLE (db c))) |};
      tx := tx c; deferredCons := deferredCons c;
      foreignKeys := foreignKeys c |}).

(** [PRAGMA foreign_keys = ON]. *)
Definition pragma_foreign_keys_on : M unit := fun c =>
  (Ok tt,
   {| db := db c; tx := tx c; deferredCons := deferredCons c;
      foreignKeys := true |}).

(** The four statements the Loader prepares, all fixed texts. *)
Inductive Sql :=
| CreateDepartments
| CreatePeople
| InsertDepartment
| InsertPerson.

(** [db.prepare] compiles at once and throws when a table the statement
    names is missing; CREATE TABLE names none that must exist (the
    REFERENCES clause is not resolved when the table is created). *)
Definition has_table {A} (t : option (list A)) : bool :=
  match t with Some _ => true | None => false end.

Definition prepare (s : Sql) : M Sql := fun c =>
  let ok :=
    match s with
    | CreateDepartments | CreatePeople => true
    | InsertDepartment => has_table (DEPARTMENTS (db c))
    | InsertPerson =>
        has_table (PEOPLE (db c)) && has_table (DEPARTMENTS (db c))
    end in
  if ok then (Ok s, c) else (Throw SqliteNoTable, c).

(** *** INSERT INTO DEPARTMENTS *)

(** The object bound to [:id, :name, :parent]. *)
Record DeptParams := {
  dp_id : string;
  dp_name : string;
  dp_parent : option string
}.

Definition dept_row (p : DeptParams) : DeptRow :=
  {| D_ID := dp_id p; D_NAME := dp_name p; D_PARENT := dp_parent p |}.

Definition has_dept_id (rows : list DeptRow) (i : string) : bool :=
  existsb (fun r => String.eqb (D_ID r) i) rows.

(** Child rows whose PARENT is [i]: what the engine scans for when a row
    with key [i] enters the parent table. *)
Definition children_of (rows : list DeptRow) (i : string) : list DeptRow :=
  filter (fun r => match D_PARENT r with
                   | Some q => String.eqb q i
                   | None => false
                   end) rows.

(** Does the new row, as a child, add an outstanding violation?  Not when
    PARENT is NULL, when the parent is there, or when the row refers to
    itself. *)
Definition child_violation (rows : list DeptRow) (p : DeptParams) : Z :=
  match dp_parent p with
  | None => 0
  | Some q =>
      if has_dept_id rows q || String.eqb q (dp_id p) then 0 else 1
  end.

(** One INSERT.  The primary key is checked at once.  The foreign key on
    PARENT is deferred: the statement only moves the counter, up when the
    new row dangles, down by the number of rows that were waiting for the
    new key (the scan is skipped while the counter is zero).  Outside a
    transaction the statement commits by itself and the counter must be
    back at zero.  A statement that fails changes nothing. *)
Definition insertDepartmentRow_run (p : DeptParams) : M unit := fun c =>
  match DEPARTMENTS (db c) with
  | None => (Throw SqliteNoTable, c)
  | Some rows =>
      if has_dept_id rows (dp_id p) then (Throw ConstraintPrimaryKey, c)
      else
        let n1 := (deferredCons c + child_violation rows p)%Z in
        let n2 := if (n1 =? 0)%Z then n1
                  else (n1 - Z.of_nat (List.length (children_of rows (dp_id p))))%Z in
        let n := if foreignKeys c then n2 else deferredCons c in
        let db' := {| DEPARTMENTS := Some (rows ++ [dept_row p]);
                      PEOPLE := PEOPLE (db c) |} in
        match tx c with
        | None =>
            if (0 <? n)%Z then (Throw ConstraintForeignKey, c)
            else (Ok tt, {| db := db'; tx := None; deferredCons := 0;
                            foreignKeys := foreignKeys c |})
        | Some snap =>
            (Ok tt, {| db := db'; tx := Some snap; deferredCons := n;
                       foreignKeys := foreignKeys c |})
        end
  end.

(** *** INSERT INTO PEOPLE *)

(** The object bound to [:id, :name, :avatar_url, :department_name];
    [pp_department_name] is [None] when the property is undefined, which
    is bound as NULL. *)
Record PersonParams := {
  pp_id : string;
  pp_name : string;
  pp_avatar_url : option string;
  pp_department_name : option string
}.

(** [(SELECT ID FROM DEPARTMENTS WHERE NAME = :department_name)]: the ID
    of the first row with that name, NULL when there is none.  The
    comparison is the binary one. *)
Definition department_id_by_name (rows : list DeptRow) (n : string)
  : option string :=
  option_map D_ID (find (fun r => String.eqb (D_NAME r) n) rows).

Definition has_person_id (rows : list PersonRow) (i : string) : bool :=
  existsb (fun r => String.eqb (P_ID r) i) rows.

(** One INSERT.  With the name bound to NULL, [NAME = NULL] holds of no
    row and the subquery gives NULL, as it does for a name that no row
    has.  Then come NOT NULL, the primary key, and the immediate foreign
    key. *)
Definition insertPersonRow_run (p : PersonParams) : M unit := fun c =>
  match PEOPLE (db c), DEPARTMENTS (db c) with
  | Some people, Some depts =>
      match pp_department_name p with
      | None => (Throw ConstraintNotNull, c)
      | Some n =>
          match department_id_by_name depts n with
          | None => (Throw ConstraintNotNull, c)
          | Some did =>
              if has_person_id people (pp_id p)
              then (Throw ConstraintPrimaryKey, c)
              else if foreignKeys c && negb (has_dept_id depts did)
              then (Throw ConstraintForeignKey, c)
              else
                (Ok tt,
                 {| db := {| DEPARTMENTS := DEPARTMENTS (db c);
                             PEOPLE := Some (people ++
                               [{| P_ID := pp_id p; P_NAME := pp_name p;
                                   P_AVATAR_URL := pp_avatar_url p;
                                   P_DEPARTMENT_ID := did |}]) |};
                    tx := tx c; deferredCons := deferredCons c;
                    foreignKeys := foreignKeys c |})
          end
      end
  | _, _ => (Throw SqliteNoTable, c)
  end.

(** *** Transactions *)

Definition begin : Conn -> Conn := fun c =>
  {| db := db c; tx := Some (db c); deferredCons := 0;
     foreignKeys := foreignKeys c |}.

(** COMMIT fails, and leaves the transaction open, while deferred
    violations are outstanding. *)
Definition commit : M unit := fun c =>
  if foreignKeys c && (0 <? deferredCons c)%Z
  then (Throw ConstraintForeignKey, c)
  else (Ok tt, {| db := db c; tx := None; deferredCons := 0;
                  foreignKeys := foreignKeys c |}).

Definition rollback : Conn -> Conn := fun c =>
  {| db := committed c; tx := None; deferredCons := 0;
     foreignKeys := foreignKeys c |}.

(** [db.transaction(fn)]: BEGIN, the function, COMMIT; whenever the
    connection is still inside the transaction afterwards (the function
    or the COMMIT threw), ROLLBACK, and the exception goes on.  Called
    inside a transaction it uses a savepoint instead. *)
Definition transaction {A B} (fn : A -> M B) (a : A) : M B := fun c =>
  match tx c with
  | None =>
      finally (b <- fn a ;; commit ;;; ret b)
              (fun c' => if inTransaction c' then rollback c' else c')
              (begin c)
  | Some snap =>
      match fn a c with
      | (Ok b, c') => (Ok b, c')
      | (Throw e, c') =>
          (Throw e, {| db := db c; tx := tx c';
                       deferredCons := deferredCons c;
                       foreignKeys := foreignKeys c' |})
      end
  end.

(** [for (const x of l) body(x)]. *)
Fixpoint for_of {A} (l : list A) (body : A -> M unit) : M unit :=
  match l with
  | [] => ret tt
  | x :: rest => body x ;;; for_of rest body
  end.

(** *** The SELECT of the endpoint *)

(** The text of the statement is the fixed
    [SELECT ... FROM PEOPLE P INNER JOIN DEPARTMENTS D ON P.DEPARTMENT_ID = D.ID]
    followed by what the handler appends; only the appended text varies,
    and only it is kept as text. *)

Definition quote : ascii := "'"%char.
Definition nul : ascii := "000"%char.

(** The tokenizer on a string literal, after its opening quote: a doubled
    quote is a quote of the value, a single one ends the literal.  The
    result is the value and the text that follows the literal; [None]
    when the text ends inside the literal. *)
Fixpoint lex_string (s : string) : option (string * string) :=
  match s with
  | EmptyString => None
  | String c rest =>
      if Ascii.eqb c quote then
        match rest with
        | String c' rest' =>
            if Ascii.eqb c' quote then
              match lex_string rest' with
              | Some (v, r) => Some (String quote v, r)
              | None => None
              end
            else Some (EmptyString, rest)
        | EmptyString => Some (EmptyString, rest)
        end
      else
        match lex_string rest with
        | Some (v, r) => Some (String c v, r)
        | None => None
        end
  end.

(** Characters that, outside a literal, neither open a comment nor quote
    an identifier: letters, digits, space, [%], [_] and [=]. *)
Definition simple_char (c : ascii) : bool :=
  let n := nat_of_ascii c in
  ((65 <=? n)%nat && (n <=? 90)%nat) || ((97 <=? n)%nat && (n <=? 122)%nat)
  || ((48 <=? n)%nat && (n <=? 57)%nat)
  || Ascii.eqb c " "%char || Ascii.eqb c "%"%char || Ascii.eqb c "_"%char
  || Ascii.eqb c "="%char.

(** Is it certain that the tokenizer meets a literal that never ends?
    [in_literal] tells whether the scan is inside one.  The scan gives up
    ([false]) at the first character outside a literal that is not a
    [simple_char]. *)
Fixpoint unterminated_literal (in_literal : bool) (s : string) : bool :=
  match s with
  | EmptyString => in_literal
  | String c rest =>
      if Ascii.eqb c quote then unterminated_literal (negb in_literal) rest
      else if in_literal || simple_char c then unterminated_literal in_literal rest
      else false
  end.

Fixpoint has_char (a : ascii) (s : string) : bool :=
  match s with
  | EmptyString => false
  | String c rest => Ascii.eqb c a || has_char a rest
  end.

Fixpoint strip_prefix (pre s : string) : option string :=
  match pre, s with
  | EmptyString, _ => Some s
  | String a pre', String b s' =>
      if Ascii.eqb a b then strip_prefix pre' s' else None
  | String _ _, EmptyString => None
  end.

Inductive Where :=
| NoWhere
| WhereLike (pattern : string).

(** What compiling the appended text gives: a WHERE clause, a certain
    error, or a statement outside what is modelled here (text that goes
    on after the literal and may or may not be valid SQL). *)
Inductive Parse :=
| Parsed (w : Where)
| SyntaxError
| Unmodelled.

Definition parse_where (tail : string) : Parse :=
  if String.eqb tail "" then Parsed NoWhere
  else if has_char nul tail then Unmodelled
  else
    match strip_prefix " WHERE P.NAME LIKE '" tail with
    | None => Unmodelled
    | Some body =>
        match lex_string body with
        | None => SyntaxError
        | Some (v, EmptyString) => Parsed (WhereLike v)
        | Some (_, rest) =>
            if unterminated_literal false rest then SyntaxError
            else Unmodelled
        end
    end.

(** [db.prepare] on the SELECT: parsing comes before the tables are
    looked up.  [None]: outside the model. *)
Definition prepare_select (tail : string) (c : Conn)
  : option (Result Where * Conn) :=
  match parse_where tail with
  | Unmodelled => None
  | SyntaxError => Some (Throw SqliteSyntax, c)
  | Parsed w =>
      if has_table (PEOPLE (db c)) && has_table (DEPARTMENTS (db c))
      then Some (Ok w, c)
      else Some (Throw SqliteNoTable, c)
  end.

(** The LIKE operator with its defaults: [%] stands for any run of
    characters, [_] for any one character, letters of the 7-bit range
    compare without case, and there is no escape character.  Characters
    are those of [string], that is bytes: this is the engine's operator on
    text of the 7-bit range, and on UTF-8 text when the pattern has no
    [_]; with [_] against a multi-byte character the engine takes the
    whole character where [like] takes its first byte. *)
Definition lower (c : ascii) : ascii :=
  let n := nat_of_ascii c in
  if (65 <=? n)%nat && (n <=? 90)%nat then ascii_of_nat (n + 32) else c.

Fixpoint like (pat : string) : string -> bool :=
  match pat with
  | EmptyString =>
      fun s => match s with EmptyString => true | String _ _ => false end
  | String c pat' =>
      if Ascii.eqb c "%"%char then
        fix any (s : string) : bool :=
          like pat' s
          || match s with EmptyString => false | String _ s' => any s' end
      else if Ascii.eqb c "_"%char then
        fun s => match s with
                 | EmptyString => false
                 | String _ s' => like pat' s'
                 end
      else
        fun s => match s with
                 | EmptyString => false
                 | String d s' => Ascii.eqb (lower c) (lower d) && like pat' s'
                 end
  end.

Definition where_holds (w : Where) (p : PersonRow) : bool :=
  match w with
  | NoWhere => true
  | WhereLike pat => like pat (P_NAME p)
  end.

(** A row of the result, with the column aliases of the SELECT list. *)
Record Row := {
  PERSON_ID : string;
  PERSON_NAME : string;
  AVATAR_URL : option string;
  DEPARTMENT_ID : string;
  DEPARTMENT_NAME : string
}.

Definition joined (p : PersonRow) (d : DeptRow) : Row :=
  {| PERSON_ID := P_ID p; PERSON_NAME := P_NAME p;
     AVATAR_URL := P_AVATAR_URL p;
     DEPARTMENT_ID := D_ID d; DEPARTMENT_NAME := D_NAME d |}.

(** The inner join, then the filter.  There is no ORDER BY; the rows come
    here in the order of a scan of PEOPLE with a lookup in DEPARTMENTS. *)
Definition select_rows (w : Where) (d : Database) : list Row :=
  flat_map
    (fun p =>
       if where_holds w p then
         map (joined p)
             (filter (fun r => String.eqb (P_DEPARTMENT_ID p) (D_ID r))
                     (table_rows (DEPARTMENTS d)))
       else [])
    (table_rows (PEOPLE d)).

(** [stmt.all()]: steps through the result; [fault] is an error of the
    engine met while stepping (a busy or unreadable file), if any. *)
Definition all (w : Where) (fault : option Error) : M (list Row) := fun c =>
  match fault with
  | Some e => (Throw e, c)
  | None => (Ok (select_rows w (db c)), c)
  end.

End Sqlite.
Import Sqlite.
Local Open Scope sql_scope.

(** ** The process around the two programs *)

Inductive LogEntry :=
| LogInfo (msg : string)    (* console.info *)
| LogError (e : Error).     (* console.error *)

(** The file [hashicorp.sqlite], the number of database handles that are
    open, and the console. *)
Record World := {
  file : Database;
  openHandles : nat;
  console : list LogEntry
}.

(** How a call of [main] or [handler] ends: it returns, or the exception
    leaves it (for the async [main], its promise is rejected). *)
Inductive Completion :=
| Returned
| Thrown (e : Error).

(** ** The Loader *)

Module Loader.

(** The object built for each department: [parent] is
    [department.parent?.id || null]. *)
Definition departmentParams (department : DepartmentNode) : DeptParams :=
  {| dp_id := dn_id department;
     dp_name := dn_name department;
     dp_parent := or_null (option_map parent_id (dn_parent department)) |}.

(** The object built for each person: [avatar_url] is
    [person.avatar?.url || null], [department_name] is
    [person.department?.name]. *)
Definition personParams (person : PersonRecord) : PersonParams :=
  {| pp_id := pr_id person;
     pp_name := pr_name person;
     pp_avatar_url :=
       or_null (match pr_avatar person with
                | Some a => url a
                | None => None
                end);
     pp_department_name := option_map dr_name (pr_department person) |}.

(** [insertDepartments] and [insertPeople] are the two functions wrapped
    by [db.transaction]; [insertDepartmentRow_run] and
    [insertPersonRow_run] stand for [insertDepartmentRow.run] and
    [insertPersonRow.run], whose statements are prepared in
    [loadDepartments] and [loadPeople] below. *)
Definition insertDepartments : list DeptParams -> M unit :=
  transaction (fun departments => for_of departments insertDepartmentRow_run).

(** [people] is undefined when [result.allPeople] is; iterating it
    throws, inside the transaction. *)
Definition insertPeople : option (list PersonParams) -> M unit :=
  transaction (fun people =>
                 match people with
                 | Some l => for_of l insertPersonRow_run
                 | None => throw TypeError
                 end).

(** The [try] block, in its three parts: the pragma and the two CREATE
    TABLE statements; the departments; the people. *)
Definition createTables : M unit :=
  pragma_foreign_keys_on ;;;
  prepare CreateDepartments ;;;
  prepare CreatePeople ;;;
  create_departments ;;;
  create_people.

Definition loadDepartments (result : QueryResult) : M unit :=
  prepare InsertDepartment ;;;
  departments <- match allDepartments result with
                 | Some l => ret (map departmentParams l)
                 | None => throw TypeError
                 end ;;
  insertDepartments departments.

Definition loadPeople (result : QueryResult) : M unit :=
  prepare InsertPerson ;;;
  insertPeople (option_map (map personParams) (allPeople result)).

Definition tryBlock (result : QueryResult) : M unit :=
  createTables ;;; loadDepartments result ;;; loadPeople result.

Definition success_message : string := "SQLite database created successfully.".

(** [main]: the handle is opened, the query is awaited, and only then
    does the [try] begin.  [fetched] is how [executeQuery] ended.  The
    journal mode set after the opening has no bearing on the contents of
    the tables and is left out.  The [catch] logs, the [finally] closes. *)
Definition main (fetched : Result QueryResult) (w : World)
  : Completion * World :=
  let conn := connect (file w) in
  let opened := S (openHandles w) in
  match fetched with
  | Throw e =>
      (Thrown e,
       {| file := file w; openHandles := opened; console := console w |})
  | Ok result =>
      let '(r, conn') := tryBlock result conn in
      let entry := match r with
                   | Ok _ => LogInfo success_message
                   | Throw e => LogError e
                   end in
      (Returned,
       {| file := committed conn';
          openHandles := pred opened;
          console := console w ++ [entry] |})
  end.

End Loader.

(** ** The query endpoint *)

Module Endpoint.

(** [req.query.search]: absent, one value, or several. *)
Inductive QueryValue :=
| Absent
| Single (s : string)
| Multi (l : list string).

Record NextApiRequest := { search : QueryValue }.

Record ResponseData := { results : list PersonRecord }.

Record Response := { status : nat; json : ResponseData }.

(** [query.search || '']: undefined and the empty string give the empty
    string; an array, even an empty one, is kept. *)
Definition searchParam (req : NextApiRequest) : QueryValue :=
  match search req with
  | Absent => Single ""
  | Single s => Single s
  | Multi l => Multi l
  end.

(** [searchParam !== '']. *)
Definition not_empty_string (v : QueryValue) : bool :=
  match v with
  | Single s => negb (String.eqb s "")
  | _ => true
  end.

(** The value inside the template literal. *)
Definition interpolated (v : QueryValue) : string :=
  match v with
  | Single s => s
  | Multi l => join l
  | Absent => "undefined"
  end.

(** The text appended to the SELECT. *)
Definition sql (req : NextApiRequest) : string :=
  let v := searchParam req in
  if not_empty_string v
  then (" WHERE P.NAME LIKE '%" ++ interpolated v ++ "%'")%string
  else "".

(** The object built for each row. *)
Definition personOfRow (row : Row) : PersonRecord :=
  {| pr_id := PERSON_ID row;
     pr_name := PERSON_NAME row;
     pr_title := None;
     pr_avatar := Some {| url := AVATAR_URL row |};
     pr_department := Some {| dr_id := Some (DEPARTMENT_ID row);
                              dr_name := DEPARTMENT_NAME row |} |}.

(** The body of the [try] block: the rows, shaped. *)
Definition tryBlock (stmt : Where) (fault : option Error)
  : M (list PersonRecord) :=
  rows <- all stmt fault ;;
  ret (if (0 <? List.length rows)%nat then map personOfRow rows else []).

Record Run := {
  completion : Completion;
  response : option Response;
  world : World
}.

(** [handler]: the handle is opened and the statement prepared before the
    [try]; the response is sent after the [finally].  [fault] is the
    error [stmt.all()] meets, if any.  [None]: the statement text is
    outside the modelled part of SQL. *)
Definition handler (req : NextApiRequest) (fault : option Error) (w : World)
  : option Run :=
  let conn := connect (file w) in
  let opened := S (openHandles w) in
  match prepare_select (sql req) conn with
  | None => None
  | Some (Throw e, _) =>
      Some {| completion := Thrown e;
              response := None;
              world := {| file := file w; openHandles := opened;
                          console := console w |} |}
  | Some (Ok stmt, conn1) =>
      let '(r, conn2) := tryBlock stmt fault conn1 in
      let data := match r with Ok d => d | Throw _ => [] end in
      let logged := match r with
                    | Ok _ => console w
                    | Throw e => console w ++ [LogError e]
                    end in
      Some {| completion := Returned;
              response := Some {| status := 200;
                                  json := {| results := data |} |};
              world := {| file := committed conn2;
                          openHandles := pred opened;
                          console := logged |} |}
  end.

End Endpoint.

(** * Definitions used in the statements *)

(** A row dangles when its PARENT is not an ID of the table. *)
Definition dangles (rows : list DeptRow) (r : DeptRow) : bool :=
  match D_PARENT r with
  | Some q => negb (has_dept_id rows q)
  | None => false
  end.

(** The rows that dangle: the violations a deferred check would find. *)
Definition dangling (rows : list DeptRow) : list DeptRow :=
  filter (dangles rows) rows.

(** Referential integrity of the PARENT column. *)
Definition fk_closed (rows : list DeptRow) : Prop :=
  forall r q, In r rows -> D_PARENT r = Some q -> In q (map D_ID rows).

(** What the table holds for a person once its INSERT succeeded: the bound
    values, and as DEPARTMENT_ID the ID found by the name. *)
Definition stored (depts : list DeptRow) (p : PersonParams) (row : PersonRow)
  : Prop :=
  P_ID row = pp_id p
  /\ P_NAME row = pp_name p
  /\ P_AVATAR_URL row = pp_avatar_url p
  /\ exists n, pp_department_name p = Some n
               /\ department_id_by_name depts n = Some (P_DEPARTMENT_ID row).

(** The connection after the pragma and the two CREATE TABLE statements. *)
Definition created (f : Database) : Conn :=
  {| db := {| DEPARTMENTS := Some (table_rows (DEPARTMENTS f));
              PEOPLE := Some (table_rows (PEOPLE f)) |};
     tx := None; deferredCons := 0; foreignKeys := true |}.

(** The departments transaction of the run from [w] commits: the [try]
    block, on a connection just opened on the file, gets through the
    pragma, the two CREATE TABLE statements and the departments. *)
Definition departmentsCommitted (result : QueryResult) (w : World) : Prop :=
  fst ((Loader.createTables ;;; Loader.loadDepartments result)
         (connect (file w))) = Ok tt.

(** The whole [try] block of the run from [w] ends normally. *)
Definition loaded (result : QueryResult) (w : World) : Prop :=
  fst (Loader.tryBlock result (connect (file w))) = Ok tt.

(** The world a run leaves when the query was answered with [result]. *)
Definition after_run (result : QueryResult) (w : World) : World :=
  snd (Loader.main (Ok result) w).

(** [name] contains [s] as it is written. *)
Definition contains (s name : string) : Prop :=
  exists pre post, name = (pre ++ s ++ post)%string.

(** A file with one department and one person. *)
Definition one_person_file : Database :=
  {| DEPARTMENTS := Some [{| D_ID := "d1"; D_NAME := "Engineering";
                             D_PARENT := None |}];
     PEOPLE := Some [{| P_ID := "p1"; P_NAME := "Bob";
                        P_AVATAR_URL := None; P_DEPARTMENT_ID := "d1" |}] |}.

(** A string with its capital letters of the 7-bit range in lower case. *)
Fixpoint fold_case (s : string) : string :=
  match s with
  | EmptyString => EmptyString
  | String c rest => String (lower c) (fold_case rest)
  end.

(** [name] contains [s] up to the case of the letters of the 7-bit range. *)
Definition contains_nocase (s name : string) : Prop :=
  exists pre mid post,
    name = (pre ++ mid ++ post)%string /\ fold_case mid = fold_case s.

(** No [%] and no [_]. *)
Fixpoint no_wildcard (s : string) : bool :=
  match s with
  | EmptyString => true
  | String c rest =>
      negb (Ascii.eqb c "%"%char) && negb (Ascii.eqb c "_"%char)
      && no_wildcard rest
  end.

(** The integrity the schema declares: the PARENT column refers to rows of
    the table, keys are unique, and every person refers to a department. *)
Definition integrity (f : Database) : Prop :=
  fk_closed (table_rows (DEPARTMENTS f))
  /\ NoDup (map D_ID (table_rows (DEPARTMENTS f)))
  /\ NoDup (map P_ID (table_rows (PEOPLE f)))
  /\ forall p, In p (table_rows (PEOPLE f)) ->
                In (P_DEPARTMENT_ID p) (map D_ID (table_rows (DEPARTMENTS f))).

(** The worlds that runs of the Loader and requests to the endpoint produce
    from a world whose file does not exist yet. *)
Inductive reachable : World -> Prop :=
| reach_start (w : World) :
    file w = empty_file -> reachable w
| reach_main (fetched : Result QueryResult) (w : World) :
    reachable w -> reachable (snd (Loader.main fetched w))
| reach_handler (req : Endpoint.NextApiRequest) (fault : option Error)
                (w : World) (run : Endpoint.Run) :
    reachable w -> Endpoint.handler req fault w = Some run ->
    reachable (Endpoint.world run).

(** The text the handler puts between the two [%]. *)
Definition searched (req : Endpoint.NextApiRequest) : string :=
  Endpoint.interpolated (Endpoint.searchParam req).

(** A request whose searched text stays inside the string literal of the
    statement: it has no quote and no NUL. *)
Definition safe_request (req : Endpoint.NextApiRequest) : Prop :=
  has_char quote (searched req) = false /\ has_char nul (searched req) = false.

(** The WHERE clause of the statement of such a request. *)
Definition where_of (req : Endpoint.NextApiRequest) : Where :=
  if Endpoint.not_empty_string (Endpoint.searchParam req)
  then WhereLike ("%" ++ searched req ++ "%")
  else NoWhere.

(** Nothing but [%]. *)
Fixpoint all_percent (s : string) : bool :=
  match s with
  | EmptyString => true
  | String c rest => Ascii.eqb c "%"%char && all_percent rest
  end.

(** ** Sample data *)

(** A feed that lists a child department before its parent, a department
    whose parent object has an empty id, and a person whose avatar has an
    empty url. *)
Definition hq : DepartmentNode :=
  {| dn_id := "d0"; dn_name := "HQ"; dn_parent := None |}.

Definition engineering : DepartmentNode :=
  {| dn_id := "d1"; dn_name := "Engineering";
     dn_parent := Some {| parent_name := "HQ"; parent_id := "d0" |} |}.

Definition sales : DepartmentNode :=
  {| dn_id := "d2"; dn_name := "Sales";
     dn_parent := Some {| parent_name := ""; parent_id := "" |} |}.

Definition bob : PersonRecord :=
  {| pr_id := "p1"; pr_name := "Bob"; pr_title := Some "Engineer";
     pr_avatar := Some {| url := Some "" |};
     pr_department := Some {| dr_id := None; dr_name := "Engineering" |} |}.

Definition anna : PersonRecord :=
  {| pr_id := "p2"; pr_name := "Anna"; pr_title := None;
     pr_avatar := None;
     pr_department := Some {| dr_id := None; dr_name := "HQ" |} |}.

(** A person of a department that is not in the feed. *)
Definition zed : PersonRecord :=
  {| pr_id := "p3"; pr_name := "Zed"; pr_title := None;
     pr_avatar := None;
     pr_department := Some {| dr_id := None; dr_name := "Nowhere" |} |}.

Definition feed : QueryResult :=
  {| allDepartments := Some [engineering; sales; hq];
     allPeople := Some [bob; anna] |}.

Definition feed_unmatched : QueryResult :=
  {| allDepartments := Some [engineering; sales; hq];
     allPeople := Some [bob; zed] |}.

(** The feed with the parent listed first. *)
Definition feed_parent_first : QueryResult :=
  {| allDepartments := Some [hq; engineering; sales];
     allPeople := Some [bob; anna] |}.

(** A response that lacks the list of people. *)
Definition feed_without_people : QueryResult :=
  {| allDepartments := Some [engineering; sales; hq];
     allPeople := None |}.

(** A file written while foreign keys were not enforced: the only row of
    DEPARTMENTS names a parent, "d0", that is not in the table. *)
Definition stale_file : Database :=
  {| DEPARTMENTS := Some [{| D_ID := "d9"; D_NAME := "Annex";
                             D_PARENT := Some "d0" |}];
     PEOPLE := Some [] |}.

Definition stale_world : World :=
  {| file := stale_file; openHandles := 0; console := [] |}.

(** A department whose parent is in no feed and no table. *)
Definition ghost : DepartmentNode :=
  {| dn_id := "d7"; dn_name := "Ghost";
     dn_parent := Some {| parent_name := "Nowhere"; parent_id := "zz" |} |}.

Definition feed_ghost : QueryResult :=
  {| allDepartments := Some [ghost; hq]; allPeople := Some [] |}.

Definition feed_ghost_last : QueryResult :=
  {| allDepartments := Some [hq; ghost]; allPeople := Some [] |}.

(** No database file yet, no handle open, nothing on the console. *)
Definition fresh : World :=
  {| file := empty_file; openHandles := 0; console := [] |}.

Definition one_person_world : World :=
  {| file := one_person_file; openHandles := 0; console := [] |}.

(** * Properties *)

(** ** Strings and lists *)

Lemma has_dept_id_In (rows : list DeptRow) (i : string) :
  has_dept_id rows i = true <-> In i (map D_ID rows).
Proof.
  unfold has_dept_id. rewrite existsb_exists, in_map_iff.
  split; intros [r [H1 H2]]; exists r.
  - apply String.eqb_eq in H2. auto.
  - split; [assumption | now apply String.eqb_eq].
Qed.

Lemma has_dept_id_app (rows more : list DeptRow) (i : string) :
  has_dept_id (rows ++ more) i = has_dept_id rows i || has_dept_id more i.
Proof. unfold has_dept_id. apply existsb_app. Qed.

Lemma has_person_id_In (rows : list PersonRow) (i : string) :
  has_person_id rows i = true <-> In i (map P_ID rows).
Proof.
  unfold has_person_id. rewrite existsb_exists, in_map_iff.
  split; intros [r [H1 H2]]; exists r.
  - apply String.eqb_eq in H2. auto.
  - split; [assumption | now apply String.eqb_eq].
Qed.

(** A filter split in two disjoint parts. *)
Lemma filter_length_split {A} (f g h : A -> bool) (l : list A) :
  (forall x, In x l -> f x = g x || h x) ->
  (forall x, In x l -> g x && h x = false) ->
  List.length (filter f l)
  = (List.length (filter g l) + List.length (filter h l))%nat.
Proof.
  induction l as [|a l IH]; intros Hf Hd; simpl; [reflexivity|].
  assert (Ha : In a (a :: l)) by (left; reflexivity).
  pose proof (Hf a Ha) as E. pose proof (Hd a Ha) as D.
  assert (IH' := IH (fun x Hx => Hf x (or_intror Hx))
                    (fun x Hx => Hd x (or_intror Hx))).
  rewrite E. destruct (g a), (h a); simpl in *; try discriminate; lia.
Qed.

(** ** The deferred foreign key of DEPARTMENTS *)

Lemma dangling_nil_closed (rows : list DeptRow) :
  dangling rows = [] <-> fk_closed rows.
Proof.
  unfold dangling, fk_closed. split.
  - intros H r q Hr Hq.
    destruct (has_dept_id rows q) eqn:E; [now apply has_dept_id_In|].
    assert (In r (filter (dangles rows) rows)) as Hin.
    { apply filter_In. split; [assumption|]. unfold dangles. now rewrite Hq, E. }
    rewrite H in Hin. destruct Hin.
  - intros H. destruct (filter (dangles rows) rows) as [|r l] eqn:E; [reflexivity|].
    assert (In r (filter (dangles rows) rows)) as Hin by (rewrite E; now left).
    apply filter_In in Hin. destruct Hin as [Hr Hd]. unfold dangles in Hd.
    destruct (D_PARENT r) as [q|] eqn:Hq; [|discriminate].
    apply (H r q Hr) in Hq. apply has_dept_id_In in Hq. rewrite Hq in Hd.
    discriminate.
Qed.

(** The counter after one more row: the rows of the table that still dangle,
    plus the new row if it does. *)
Lemma dangling_after_insert (rows : list DeptRow) (p : DeptParams) :
  has_dept_id rows (dp_id p) = false ->
  (Z.of_nat (List.length (dangling (rows ++ [dept_row p])))
   = Z.of_nat (List.length (dangling rows)) + child_violation rows p
     - Z.of_nat (List.length (children_of rows (dp_id p))))%Z.
Proof.
  intros Hfresh. unfold dangling at 1. rewrite filter_app, length_app.
  set (new := rows ++ [dept_row p]).
  assert (Hhas : forall q, has_dept_id new q
                           = has_dept_id rows q || String.eqb (dp_id p) q).
  { intros q. unfold new. rewrite has_dept_id_app. simpl.
    now rewrite orb_false_r. }
  assert (Hsplit : List.length (dangling rows)
                   = (List.length (filter (dangles new) rows)
                      + List.length (children_of rows (dp_id p)))%nat).
  { unfold dangling, children_of. apply filter_length_split.
    - intros r _. unfold dangles. destruct (D_PARENT r) as [q|]; [|reflexivity].
      rewrite Hhas. rewrite (String.eqb_sym (dp_id p) q).
      destruct (String.eqb q (dp_id p)) eqn:E.
      + apply String.eqb_eq in E. subst q. rewrite Hfresh. reflexivity.
      + rewrite orb_false_r, orb_false_r. reflexivity.
    - intros r _. unfold dangles. destruct (D_PARENT r) as [q|]; [|reflexivity].
      rewrite Hhas. rewrite (String.eqb_sym (dp_id p) q).
      destruct (String.eqb q (dp_id p)); [|apply andb_false_r].
      rewrite orb_true_r. reflexivity. }
  assert (Hnew : Z.of_nat (List.length (filter (dangles new) [dept_row p]))
                 = child_violation rows p).
  { simpl. unfold dangles, child_violation. simpl.
    destruct (dp_parent p) as [q|]; [|reflexivity].
    rewrite Hhas. rewrite (String.eqb_sym (dp_id p) q).
    destruct (has_dept_id rows q || String.eqb q (dp_id p)); reflexivity. }
  lia.
Qed.

Lemma child_violation_range (rows : list DeptRow) (p : DeptParams) :
  (0 <= child_violation rows p <= 1)%Z.
Proof.
  unfold child_violation. destruct (dp_parent p) as [q|]; [|lia].
  destruct (has_dept_id rows q || String.eqb q (dp_id p)); lia.
Qed.

(** With a fresh key, every row that waits for it dangles. *)
Lemma children_dangle (rows : list DeptRow) (i : string) :
  has_dept_id rows i = false ->
  (List.length (children_of rows i) <= List.length (dangling rows))%nat.
Proof.
  intros Hfresh. unfold dangling.
  rewrite (filter_length_split (dangles rows)
             (fun r => dangles rows r
                       && negb (match D_PARENT r with
                                | Some q => String.eqb q i
                                | None => false
                                end))
             (fun r => match D_PARENT r with
                       | Some q => String.eqb q i
                       | None => false
                       end)).
  - unfold children_of. lia.
  - intros r _. unfold dangles. destruct (D_PARENT r) as [q|]; [|reflexivity].
    destruct (String.eqb q i) eqn:E.
    + apply String.eqb_eq in E. subst q. rewrite Hfresh. reflexivity.
    + simpl. rewrite andb_true_r, orb_false_r. reflexivity.
  - intros r _. unfold dangles. destruct (D_PARENT r) as [q|]; [|reflexivity].
    destruct (String.eqb q i), (has_dept_id rows q); reflexivity.
Qed.

(** One INSERT inside a transaction: a duplicate key throws and changes
    nothing; otherwise the row is appended, and a counter that told the
    number of dangling rows still does. *)
Lemma insertDepartmentRow_step (p : DeptParams) (c : Conn)
      (rows : list DeptRow) (snap : Database) :
  DEPARTMENTS (db c) = Some rows ->
  tx c = Some snap ->
  insertDepartmentRow_run p c = (Throw ConstraintPrimaryKey, c)
  \/ exists c',
      insertDepartmentRow_run p c = (Ok tt, c')
      /\ has_dept_id rows (dp_id p) = false
      /\ DEPARTMENTS (db c') = Some (rows ++ [dept_row p])
      /\ PEOPLE (db c') = PEOPLE (db c)
      /\ tx c' = Some snap
      /\ foreignKeys c' = foreignKeys c
      /\ (foreignKeys c = true ->
          deferredCons c = Z.of_nat (List.length (dangling rows)) ->
          deferredCons c'
          = Z.of_nat (List.length (dangling (rows ++ [dept_row p])))).
Proof.
  intros Hd Ht. unfold insertDepartmentRow_run. rewrite Hd, Ht.
  destruct (has_dept_id rows (dp_id p)) eqn:Hfresh; [left; reflexivity|].
  right. eexists. split; [reflexivity|]. simpl.
  repeat split.
  intros Hfk Hcount. rewrite Hfk, Hcount.
  rewrite (dangling_after_insert rows p Hfresh).
  pose proof (child_violation_range rows p).
  pose proof (children_dangle rows (dp_id p) Hfresh).
  destruct (Z.eqb_spec (Z.of_nat (List.length (dangling rows))
                        + child_violation rows p) 0); lia.
Qed.

(** The loop of [insertDepartments]. *)
Lemma for_of_departments (l : list DeptParams) :
  forall (c : Conn) (rows : list DeptRow) (snap : Database) r c',
    DEPARTMENTS (db c) = Some rows ->
    tx c = Some snap ->
    for_of l insertDepartmentRow_run c = (r, c') ->
    tx c' = Some snap
    /\ PEOPLE (db c') = PEOPLE (db c)
    /\ foreignKeys c' = foreignKeys c
    /\ match r with
       | Throw _ => True
       | Ok _ =>
           DEPARTMENTS (db c') = Some (rows ++ map dept_row l)
           /\ (foreignKeys c = true ->
               deferredCons c = Z.of_nat (List.length (dangling rows)) ->
               deferredCons c'
               = Z.of_nat (List.length (dangling (rows ++ map dept_row l))))
           /\ (NoDup (map D_ID rows) ->
               NoDup (map D_ID (rows ++ map dept_row l)))
       end.
Proof.
  induction l as [|p l IH]; intros c rows snap r c' Hd Ht Hrun.
  - simpl in Hrun. unfold ret in Hrun. inversion Hrun; subst.
    simpl. rewrite app_nil_r. repeat split; auto.
  - simpl in Hrun. unfold bind in Hrun.
    destruct (insertDepartmentRow_step p c Hd Ht)
      as [E | [c1 [E [Hfresh [Hd1 [Hp1 [Ht1 [Hf1 Hc1]]]]]]]];
      rewrite E in Hrun.
    + inversion Hrun; subst. auto.
    + destruct (IH c1 (rows ++ [dept_row p]) snap r c' Hd1 Ht1 Hrun)
        as [Ht' [Hp' [Hf' Hr]]].
      rewrite Hp', Hf', Hp1, Hf1. repeat split; try assumption.
      destruct r as [u|e]; [|exact I].
      simpl. rewrite <- app_assoc in Hr. simpl in Hr.
      destruct Hr as [Hrows [Hcount Hnodup]]. split; [assumption|]. split.
      * intros Hfk Hc. apply Hcount; [congruence | auto].
      * intros Hnd. apply Hnodup. rewrite map_app. apply NoDup_app.
        -- assumption.
        -- simpl. constructor; [intros [] | constructor].
        -- intros a Ha [Hb | []]. simpl in Hb. subst a.
           apply has_dept_id_In in Ha. congruence.
Qed.

(** The departments transaction as a whole. *)
Lemma insertDepartments_spec (l : list DeptParams) (c : Conn)
      (rows : list DeptRow) r c' :
  tx c = None ->
  DEPARTMENTS (db c) = Some rows ->
  Loader.insertDepartments l c = (r, c') ->
  tx c' = None
  /\ foreignKeys c' = foreignKeys c
  /\ PEOPLE (db c') = PEOPLE (db c)
  /\ ((r = Ok tt
       /\ DEPARTMENTS (db c') = Some (rows ++ map dept_row l)
       /\ (foreignKeys c = true -> fk_closed rows ->
           fk_closed (rows ++ map dept_row l))
       /\ (NoDup (map D_ID rows) ->
           NoDup (map D_ID (rows ++ map dept_row l))))
      \/ (exists e, r = Throw e /\ db c' = db c)).
Proof.
  intros Ht Hd Hrun.
  unfold Loader.insertDepartments, transaction in Hrun. rewrite Ht in Hrun.
  unfold finally, bind in Hrun.
  destruct (for_of l insertDepartmentRow_run (begin c)) as [r1 c1] eqn:Hloop.
  apply (for_of_departments l (begin c) (rows := rows) (snap := db c)) in Hloop;
    [|exact Hd|reflexivity].
  destruct Hloop as [Ht1 [Hp1 [Hf1 Hr1]]]. simpl in Hp1, Hf1.
  destruct r1 as [[]|e].
  - destruct Hr1 as [Hrows [Hcount Hnodup]]. unfold commit in Hrun.
    destruct (foreignKeys c1 && (0 <? deferredCons c1)%Z) eqn:Hchk.
    + inversion Hrun; subst. unfold inTransaction. rewrite Ht1.
      unfold rollback, committed. rewrite Ht1. simpl.
      repeat split; try assumption.
      right. exists ConstraintForeignKey. auto.
    + unfold ret in Hrun. inversion Hrun; subst. simpl.
      repeat split; try assumption.
      left. repeat split; try assumption.
      intros Hfk Hclosed. apply dangling_nil_closed.
      apply dangling_nil_closed in Hclosed.
      rewrite Hf1, Hfk in Hchk. simpl in Hchk.
      assert (deferredCons c1
              = Z.of_nat (List.length (dangling (rows ++ map dept_row l)))) as Hc.
      { apply Hcount; [assumption|]. simpl. rewrite Hclosed. reflexivity. }
      apply Z.ltb_ge in Hchk. apply length_zero_iff_nil. lia.
  - inversion Hrun; subst. unfold inTransaction. rewrite Ht1.
    unfold rollback, committed. rewrite Ht1. simpl.
    repeat split; try assumption.
    right. exists e. auto.
Qed.

(** ** The people transaction *)

Lemma insertPersonRow_step (p : PersonParams) (c : Conn)
      (people : list PersonRow) (depts : list DeptRow) :
  PEOPLE (db c) = Some people ->
  DEPARTMENTS (db c) = Some depts ->
  (exists e, insertPersonRow_run p c = (Throw e, c))
  \/ exists c' row,
      insertPersonRow_run p c = (Ok tt, c')
      /\ stored depts p row
      /\ has_person_id people (pp_id p) = false
      /\ PEOPLE (db c') = Some (people ++ [row])
      /\ DEPARTMENTS (db c') = Some depts
      /\ tx c' = tx c
      /\ foreignKeys c' = foreignKeys c
      /\ deferredCons c' = deferredCons c.
Proof.
  intros Hp Hd. unfold insertPersonRow_run. rewrite Hp, Hd.
  destruct (pp_department_name p) as [n|] eqn:Hn; [|left; eauto].
  destruct (department_id_by_name depts n) as [did|] eqn:Hdid; [|left; eauto].
  destruct (has_person_id people (pp_id p)) eqn:Hfresh; [left; eauto|].
  destruct (foreignKeys c && negb (has_dept_id depts did)); [left; eauto|].
  right. do 2 eexists. split; [reflexivity|]. simpl.
  repeat split; try reflexivity. exists n. simpl. auto.
Qed.

(** A person whose department name is the NAME of no row: the INSERT
    violates NOT NULL on DEPARTMENT_ID, whatever else the tables hold. *)
Lemma insertPersonRow_unmatched (p : PersonParams) (c : Conn)
      (people : list PersonRow) (depts : list DeptRow) (n : string) :
  PEOPLE (db c) = Some people ->
  DEPARTMENTS (db c) = Some depts ->
  pp_department_name p = Some n ->
  (forall d, In d depts -> D_NAME d <> n) ->
  insertPersonRow_run p c = (Throw ConstraintNotNull, c).
Proof.
  intros Hp Hd Hn Hno. unfold insertPersonRow_run. rewrite Hp, Hd, Hn.
  unfold department_id_by_name.
  destruct (find (fun r => String.eqb (D_NAME r) n) depts) as [d|] eqn:E;
    [|reflexivity].
  apply find_some in E. destruct E as [Hin Heq].
  apply String.eqb_eq in Heq. now apply Hno in Hin.
Qed.

(** The loop of [insertPeople]. *)
Lemma for_of_people (l : list PersonParams) :
  forall (c : Conn) (people : list PersonRow) (depts : list DeptRow) r c',
    PEOPLE (db c) = Some people ->
    DEPARTMENTS (db c) = Some depts ->
    for_of l insertPersonRow_run c = (r, c') ->
    tx c' = tx c
    /\ DEPARTMENTS (db c') = Some depts
    /\ foreignKeys c' = foreignKeys c
    /\ deferredCons c' = deferredCons c
    /\ match r with
       | Throw _ => True
       | Ok _ =>
           exists added,
             PEOPLE (db c') = Some (people ++ added)
             /\ Forall2 (stored depts) l added
             /\ (NoDup (map P_ID people) -> NoDup (map P_ID (people ++ added)))
       end.
Proof.
  induction l as [|p l IH]; intros c people depts r c' Hp Hd Hrun.
  - simpl in Hrun. unfold ret in Hrun. inversion Hrun; subst.
    repeat split; try assumption. exists []. rewrite app_nil_r. auto.
  - simpl in Hrun. unfold bind in Hrun.
    destruct (insertPersonRow_step p c Hp Hd)
      as [[e E] | [c1 [row [E [Hst [Hfresh [Hp1 [Hd1 [Ht1 [Hf1 Hc1]]]]]]]]]];
      rewrite E in Hrun.
    + inversion Hrun; subst. auto.
    + destruct (IH c1 (people ++ [row]) depts r c' Hp1 Hd1 Hrun)
        as [Ht' [Hd' [Hf' [Hc' Hr]]]].
      rewrite Ht', Hf', Hc', Ht1, Hf1, Hc1. repeat split; try assumption.
      destruct r as [u|e]; [|exact I].
      destruct Hr as [added [Hrows [Hall Hnodup]]].
      exists (row :: added). rewrite <- app_assoc in Hrows, Hnodup.
      simpl in Hrows, Hnodup.
      split; [assumption|]. split; [constructor; assumption|].
      intros Hnd. apply Hnodup. rewrite map_app. apply NoDup_app.
      * assumption.
      * simpl. constructor; [intros [] | constructor].
      * intros a Ha [Hb | []]. simpl in Hb. subst a.
        destruct Hst as [Hid _]. rewrite Hid in Ha.
        apply has_person_id_In in Ha. congruence.
Qed.

(** The people transaction as a whole. *)
Lemma insertPeople_spec (arg : option (list PersonParams)) (c : Conn)
      (people : list PersonRow) (depts : list DeptRow) r c' :
  tx c = None ->
  PEOPLE (db c) = Some people ->
  DEPARTMENTS (db c) = Some depts ->
  Loader.insertPeople arg c = (r, c') ->
  tx c' = None
  /\ DEPARTMENTS (db c') = Some depts
  /\ ((r = Ok tt
       /\ exists l added,
           arg = Some l
           /\ PEOPLE (db c') = Some (people ++ added)
           /\ Forall2 (stored depts) l added
           /\ (NoDup (map P_ID people) -> NoDup (map P_ID (people ++ added))))
      \/ (exists e, r = Throw e /\ db c' = db c)).
Proof.
  intros Ht Hp Hd Hrun.
  unfold Loader.insertPeople, transaction in Hrun. rewrite Ht in Hrun.
  unfold finally, bind in Hrun.
  destruct arg as [l|].
  - destruct (for_of l insertPersonRow_run (begin c)) as [r1 c1] eqn:Hloop.
    apply (for_of_people l (begin c) (people := people) (depts := depts))
      in Hloop; [|exact Hp|exact Hd].
    destruct Hloop as [Ht1 [Hd1 [Hf1 [Hc1 Hr1]]]]. simpl in Ht1, Hf1, Hc1.
    destruct r1 as [[]|e].
    + destruct Hr1 as [added [Hrows [Hall Hnodup]]]. unfold commit in Hrun.
      rewrite Hc1 in Hrun. simpl in Hrun. rewrite andb_false_r in Hrun.
      unfold ret in Hrun. inversion Hrun; subst. simpl.
      repeat split; try assumption.
      left. split; [reflexivity|]. exists l, added. auto.
    + inversion Hrun; subst. unfold inTransaction. rewrite Ht1.
      unfold rollback, committed. rewrite Ht1. simpl.
      repeat split; try assumption.
      right. exists e. auto.
  - unfold throw in Hrun. simpl in Hrun. inversion Hrun; subst. simpl.
    repeat split; try assumption.
    right. exists TypeError. auto.
Qed.

(** ** The run of the Loader, phase by phase *)

Lemma createTables_spec (f : Database) :
  Loader.createTables (connect f) = (Ok tt, created f).
Proof. reflexivity. Qed.

(** The pragma and the CREATE TABLE statements always go through, so the
    departments are loaded from the state [created]. *)
Lemma departmentsCommitted_created (result : QueryResult) (w : World) :
  departmentsCommitted result w
  = (fst (Loader.loadDepartments result (created (file w))) = Ok tt).
Proof. reflexivity. Qed.

Lemma tryBlock_phases (result : QueryResult) (f : Database) :
  Loader.tryBlock result (connect f)
  = match Loader.loadDepartments result (created f) with
    | (Ok _, c) => Loader.loadPeople result c
    | (Throw e, c) => (Throw e, c)
    end.
Proof. reflexivity. Qed.

Lemma loadDepartments_spec (result : QueryResult) (f : Database) r c :
  Loader.loadDepartments result (created f) = (r, c) ->
  tx c = None
  /\ foreignKeys c = true
  /\ PEOPLE (db c) = Some (table_rows (PEOPLE f))
  /\ ((r = Ok tt
       /\ exists ds,
           allDepartments result = Some ds
           /\ DEPARTMENTS (db c)
              = Some (table_rows (DEPARTMENTS f)
                      ++ map dept_row (map Loader.departmentParams ds))
           /\ (fk_closed (table_rows (DEPARTMENTS f)) ->
               fk_closed (table_rows (DEPARTMENTS f)
                          ++ map dept_row (map Loader.departmentParams ds)))
           /\ (NoDup (map D_ID (table_rows (DEPARTMENTS f))) ->
               NoDup (map D_ID (table_rows (DEPARTMENTS f)
                          ++ map dept_row (map Loader.departmentParams ds)))))
      \/ (exists e, r = Throw e /\ db c = db (created f))).
Proof.
  unfold Loader.loadDepartments, bind. simpl.
  destruct (allDepartments result) as [ds|].
  - unfold ret. intros Hrun.
    apply (insertDepartments_spec _ (created f)
             (rows := table_rows (DEPARTMENTS f))) in Hrun;
      [|reflexivity|reflexivity].
    destruct Hrun as [Ht [Hf [Hp Hr]]]. simpl in Hf, Hp.
    repeat split; try assumption.
    destruct Hr as [[Hok [Hrows [Hclosed Hnodup]]] | Hthrow]; [left|right; assumption].
    split; [assumption|]. exists ds. repeat split; auto.
  - unfold throw. intros Hrun. inversion Hrun; subst. simpl.
    repeat split. right. exists TypeError. auto.
Qed.

Lemma loadPeople_spec (result : QueryResult) (c : Conn)
      (people : list PersonRow) (depts : list DeptRow) r c' :
  tx c = None ->
  PEOPLE (db c) = Some people ->
  DEPARTMENTS (db c) = Some depts ->
  Loader.loadPeople result c = (r, c') ->
  tx c' = None
  /\ DEPARTMENTS (db c') = Some depts
  /\ ((r = Ok tt
       /\ exists l added,
           allPeople result = Some l
           /\ PEOPLE (db c') = Some (people ++ added)
           /\ Forall2 (stored depts) (map Loader.personParams l) added
           /\ (NoDup (map P_ID people) -> NoDup (map P_ID (people ++ added))))
      \/ (exists e, r = Throw e /\ db c' = db c)).
Proof.
  intros Ht Hp Hd. unfold Loader.loadPeople, bind, prepare.
  rewrite Hp, Hd. simpl. intros Hrun.
  apply (insertPeople_spec _ c Ht Hp Hd) in Hrun.
  destruct Hrun as [Ht' [Hd' Hr]]. repeat split; try assumption.
  destruct Hr as [[Hok [l [added [Harg Hrest]]]] | Hthrow]; [left|right; assumption].
  split; [assumption|].
  destruct (allPeople result) as [l0|]; [|discriminate].
  simpl in Harg. inversion Harg; subst. exists l0, added. auto.
Qed.

(** The world [main] leaves when the query was answered. *)
Lemma main_fetched (result : QueryResult) (w : World) :
  Loader.main (Ok result) w
  = (Returned,
     {| file := committed (snd (Loader.tryBlock result (connect (file w))));
        openHandles := openHandles w;
        console := console w
                   ++ [match fst (Loader.tryBlock result (connect (file w))) with
                       | Ok _ => LogInfo Loader.success_message
                       | Throw e => LogError e
                       end] |}).
Proof.
  unfold Loader.main.
  destruct (Loader.tryBlock result (connect (file w))) as [r c]. reflexivity.
Qed.

Lemma Forall2_In_l {A B} (R : A -> B -> Prop) (l : list A) (l' : list B) x :
  Forall2 R l l' -> In x l -> exists y, In y l' /\ R x y.
Proof.
  induction 1 as [|a b l l' Hab _ IH]; intros Hin; [destruct Hin|].
  destruct Hin as [-> | Hin].
  - exists b. split; [now left | assumption].
  - destruct (IH Hin) as [y [Hy Hr]]. exists y. split; [now right | assumption].
Qed.

(** A key determines its row. *)
Lemma NoDup_key {A B} (f : A -> B) (l : list A) x y :
  NoDup (map f l) -> In x l -> In y l -> f x = f y -> x = y.
Proof.
  induction l as [|a l IH]; intros Hnd Hx Hy E; [destruct Hx|].
  simpl in Hnd. apply NoDup_cons_iff in Hnd. destruct Hnd as [Hnotin Hnd].
  destruct Hx as [-> | Hx], Hy as [-> | Hy].
  - reflexivity.
  - exfalso. apply Hnotin. rewrite E. now apply in_map.
  - exfalso. apply Hnotin. rewrite <- E. now apply in_map.
  - now apply IH.
Qed.

Lemma committed_autocommit (c : Conn) : tx c = None -> committed c = db c.
Proof. unfold committed. now intros ->. Qed.

(** Every way the [try] block can go, with what is in the file afterwards:
    the departments transaction fails and nothing is inserted; or it
    commits, and then the people transaction fails or commits. *)
Lemma tryBlock_cases (result : QueryResult) (f : Database) :
  let out := Loader.tryBlock result (connect f) in
  let depts0 := table_rows (DEPARTMENTS f) in
  let people0 := table_rows (PEOPLE f) in
  (exists e,
      fst (Loader.loadDepartments result (created f)) = Throw e
      /\ fst out = Throw e
      /\ committed (snd out) = {| DEPARTMENTS := Some depts0;
                                  PEOPLE := Some people0 |})
  \/ (exists ds depts,
        fst (Loader.loadDepartments result (created f)) = Ok tt
        /\ allDepartments result = Some ds
        /\ depts = depts0 ++ map dept_row (map Loader.departmentParams ds)
        /\ DEPARTMENTS (committed (snd out)) = Some depts
        /\ (fk_closed depts0 -> fk_closed depts)
        /\ (NoDup (map D_ID depts0) -> NoDup (map D_ID depts))
        /\ ((exists e, fst out = Throw e
                       /\ PEOPLE (committed (snd out)) = Some people0)
            \/ (fst out = Ok tt
                /\ exists l added,
                    allPeople result = Some l
                    /\ PEOPLE (committed (snd out)) = Some (people0 ++ added)
                    /\ Forall2 (stored depts) (map Loader.personParams l) added
                    /\ (NoDup (map P_ID people0) ->
                        NoDup (map P_ID (people0 ++ added)))))).
Proof.
  intros out depts0 people0. unfold out. rewrite tryBlock_phases.
  destruct (Loader.loadDepartments result (created f)) as [r1 c1] eqn:H1.
  destruct (loadDepartments_spec _ _ H1) as [Ht1 [Hf1 [Hp1 Hr1]]].
  destruct Hr1 as [[-> [ds [Hds [Hrows [Hclosed Hnodup]]]]] | [e [-> Hdb]]].
  - right. exists ds, (depts0 ++ map dept_row (map Loader.departmentParams ds)).
    simpl. destruct (Loader.loadPeople result c1) as [r2 c2] eqn:H2.
    destruct (loadPeople_spec _ _ Ht1 Hp1 Hrows H2) as [Ht2 [Hd2 Hr2]].
    simpl. rewrite (committed_autocommit _ Ht2).
    repeat split; try assumption.
    destruct Hr2 as [[-> [l [added Hl]]] | [e [-> Hdb]]].
    + right. split; [reflexivity|]. exists l, added. exact Hl.
    + left. exists e. split; [reflexivity|]. rewrite Hdb. exact Hp1.
  - left. exists e. simpl. rewrite (committed_autocommit _ Ht1), Hdb.
    repeat split.
Qed.

(** ** Claims about the Loader *)


(** C3 as it is stated, for every table, does not hold.  The engine counts
    the deferred violations instead of checking the table at COMMIT: on a
    table that already holds a row waiting for the parent "d0", the INSERT
    of the department "d0" takes one violation off the counter, the one
    that the INSERT of Ghost had put there.  The transaction commits, and
    the parent "zz" of Ghost is the ID of no row. *)
Lemma parent_missing_after_commit_on_stale_table :
  ~ (forall (result : QueryResult) (ds : list DepartmentNode) (w : World)
            (d : DepartmentNode) (par : ParentRef),
        departmentsCommitted result w ->
        allDepartments result = Some ds ->
        In d ds ->
        dn_parent d = Some par ->
        parent_id par <> "" ->
        In (parent_id par)
           (map D_ID
                (table_rows
                   (DEPARTMENTS (file (snd (Loader.main (Ok result) w))))))).
Proof.
  intros H.
  assert (Hin : In "zz"
                   (map D_ID
                        (table_rows
                           (DEPARTMENTS
                              (file (snd (Loader.main (Ok feed_ghost)
                                                      stale_world))))))).
  { apply (H feed_ghost [ghost; hq] stale_world ghost
             {| parent_name := "Nowhere"; parent_id := "zz" |}).
    - reflexivity.
    - reflexivity.
    - left. reflexivity.
    - reflexivity.
    - discriminate. }
  simpl in Hin. destruct Hin as [E | [E | [E | []]]]; discriminate.
Qed.

(** C3, amended.  Referential integrity after commit.  When the table was
    consistent before the run and the departments transaction commits,
    the identifier of the parent of every fetched department is the ID of
    a row of DEPARTMENTS, in whatever order the feed lists parents and
    children. *)
Theorem parent_exists_after_commit
        (result : QueryResult) (ds : list DepartmentNode) (w : World)
        (d : DepartmentNode) (par : ParentRef) :
  fk_closed (table_rows (DEPARTMENTS (file w))) ->
  departmentsCommitted result w ->
  allDepartments result = Some ds ->
  In d ds ->
  dn_parent d = Some par ->
  parent_id par <> "" ->
  In (parent_id par)
     (map D_ID (table_rows (DEPARTMENTS (file (snd (Loader.main (Ok result) w)))))).
Proof.
  intros Hclosed Hcommit Hds Hin Hpar Hne.
  rewrite main_fetched. simpl. rewrite departmentsCommitted_created in Hcommit.
  destruct (tryBlock_cases result (file w))
    as [[e [H1 _]] | [ds' [depts [_ [Hds' [Hdepts [Hfile [Hcl _]]]]]]]].
  - rewrite Hcommit in H1. discriminate.
  - rewrite Hfile. simpl. assert (ds' = ds) by congruence. subst ds'.
    apply (Hcl Hclosed (dept_row (Loader.departmentParams d))).
    + rewrite Hdepts. apply in_or_app. right. now do 2 apply in_map.
    + simpl. rewrite Hpar. simpl.
      destruct (String.eqb_spec (parent_id par) ""); [contradiction|reflexivity].
Qed.

(** C8.  A person whose department name is the NAME of no row of
    DEPARTMENTS.  Whenever the INSERT for that person runs against these
    departments it violates NOT NULL on DEPARTMENT_ID; the run logs an
    error, and PEOPLE holds after the run exactly the rows it held before:
    no person of the batch is committed. *)
Theorem unmatched_department_aborts_people
        (result : QueryResult) (people : list PersonRecord)
        (p : PersonRecord) (n : string) (w : World) :
  allPeople result = Some people ->
  In p people ->
  option_map dr_name (pr_department p) = Some n ->
  (forall d,
      In d (table_rows (DEPARTMENTS (file (snd (Loader.main (Ok result) w))))) ->
      D_NAME d <> n) ->
  PEOPLE (file (snd (Loader.main (Ok result) w)))
  = Some (table_rows (PEOPLE (file w)))
  /\ (exists e,
         console (snd (Loader.main (Ok result) w)) = console w ++ [LogError e])
  /\ (forall c rows,
         PEOPLE (db c) = Some rows ->
         DEPARTMENTS (db c)
         = DEPARTMENTS (file (snd (Loader.main (Ok result) w))) ->
         insertPersonRow_run (Loader.personParams p) c
         = (Throw ConstraintNotNull, c)).
Proof.
  intros Hpeople Hin Hname. rewrite main_fetched. simpl. intros Hno.
  destruct (tryBlock_cases result (file w))
    as [[e [_ [Hout Hfile]]]
       | [ds [depts [_ [_ [_ [Hfile [_ [_ Hpeople']]]]]]]]].
  - rewrite Hfile in *. rewrite Hout. simpl in *. repeat split.
    + eauto.
    + intros c rows Hp Hd.
      now apply (insertPersonRow_unmatched _ c (n := n) Hp Hd).
  - rewrite Hfile in Hno. simpl in Hno.
    assert (Hthrow : exists e,
               fst (Loader.tryBlock result (connect (file w))) = Throw e
               /\ PEOPLE (committed (snd (Loader.tryBlock result (connect (file w)))))
                  = Some (table_rows (PEOPLE (file w)))).
    { destruct Hpeople' as [Hthrow | [_ [l [added [Hl [_ [Hall _]]]]]]];
        [assumption|].
      exfalso. assert (l = people) by congruence. subst l.
      destruct (Forall2_In_l (Loader.personParams p) Hall (in_map _ _ _ Hin))
        as [row [_ [_ [_ [_ [n' [Hn' Hfind]]]]]]].
      assert (n' = n) by (simpl in Hn'; congruence). subst n'.
      unfold department_id_by_name in Hfind.
      destruct (find (fun r => String.eqb (D_NAME r) n) depts) as [d|] eqn:E;
        [|discriminate].
      apply find_some in E. destruct E as [Hd Heq].
      apply String.eqb_eq in Heq. now apply (Hno d). }
    destruct Hthrow as [e [Hout Hp]]. rewrite Hout, Hp. repeat split.
    + eauto.
    + intros c rows Hp' Hd. rewrite Hfile in Hd.
      now apply (insertPersonRow_unmatched _ c (n := n) Hp' Hd).
Qed.

(** C10.  The null marker stands for every falsy value.  After a run whose
    [try] block ends normally, a department whose parent object has the
    empty string as id is stored with PARENT NULL, and a person whose
    avatar object has the empty string as url is stored with AVATAR_URL
    NULL. *)
Theorem falsy_parent_and_avatar_stored_null (result : QueryResult) (w : World) :
  loaded result w ->
  (forall ds d par,
      allDepartments result = Some ds -> In d ds ->
      dn_parent d = Some par -> parent_id par = "" ->
      In {| D_ID := dn_id d; D_NAME := dn_name d; D_PARENT := None |}
         (table_rows (DEPARTMENTS (file (snd (Loader.main (Ok result) w))))))
  /\ (forall people p,
         allPeople result = Some people -> In p people ->
         pr_avatar p = Some {| url := Some "" |} ->
         exists row,
           In row (table_rows (PEOPLE (file (snd (Loader.main (Ok result) w)))))
           /\ P_ID row = pr_id p
           /\ P_NAME row = pr_name p
           /\ P_AVATAR_URL row = None).
Proof.
  intros Hloaded. unfold loaded in Hloaded. rewrite main_fetched. simpl.
  destruct (tryBlock_cases result (file w))
    as [[e [_ [Hout _]]]
       | [ds [depts [_ [Hds [Hdepts [Hfile [_ [_ Hpeople]]]]]]]]];
    [rewrite Hloaded in Hout; discriminate|].
  destruct Hpeople as [[e [Hout _]] | [_ [l [added [Hl [Hrows [Hall _]]]]]]];
    [rewrite Hloaded in Hout; discriminate|].
  split.
  - intros ds' d par Hds' Hin Hpar Hid. rewrite Hfile. simpl.
    assert (ds' = ds) by congruence. subst ds'.
    rewrite Hdepts. apply in_or_app. right.
    apply in_map_iff. exists (Loader.departmentParams d).
    split; [|now apply in_map].
    unfold dept_row, Loader.departmentParams. simpl.
    rewrite Hpar. simpl. rewrite Hid. reflexivity.
  - intros people p Hpeople' Hin Hav. rewrite Hrows. simpl.
    assert (l = people) by congruence. subst l.
    destruct (Forall2_In_l (Loader.personParams p) Hall (in_map _ _ _ Hin))
      as [row [Hrow [Hid [Hname [Hurl _]]]]].
    exists row. split; [apply in_or_app; now right|].
    repeat split; try assumption.
    rewrite Hurl. simpl. rewrite Hav. reflexivity.
Qed.

(** What does hold of C2: once the query was answered, every error of the
    run is caught and logged, [main] returns, and the handle is released. *)
Lemma main_try_errors_swallowed (result : QueryResult) (w : World) :
  fst (Loader.main (Ok result) w) = Returned
  /\ openHandles (snd (Loader.main (Ok result) w)) = openHandles w
  /\ exists entry,
      console (snd (Loader.main (Ok result) w)) = console w ++ [entry]
      /\ forall e, fst (Loader.tryBlock result (connect (file w))) = Throw e ->
                   entry = LogError e.
Proof.
  rewrite main_fetched. simpl. repeat split.
  eexists. split; [reflexivity|]. now intros e ->.
Qed.

(** C2, where the code departs from it.  [executeQuery] is awaited between
    the opening of the handle and the [try]: when it rejects, the error
    leaves [main], nothing is logged, and the handle stays open. *)
Theorem main_fetch_failure_escapes (e : Error) (w : World) :
  fst (Loader.main (Throw e) w) = Thrown e
  /\ console (snd (Loader.main (Throw e) w)) = console w
  /\ openHandles (snd (Loader.main (Throw e) w)) = S (openHandles w).
Proof. repeat split. Qed.

(** ** Claims about the query endpoint *)

Lemma prepare_select_conn (tail : string) (c : Conn) r c' :
  prepare_select tail c = Some (r, c') -> c' = c.
Proof.
  unfold prepare_select. destruct (parse_where tail); try discriminate.
  - destruct (has_table (PEOPLE (db c)) && has_table (DEPARTMENTS (db c)));
      intros H; now inversion H.
  - intros H; now inversion H.
Qed.

(** The rows of the join, as a set. *)
Lemma select_rows_In (f : Where) (d : Database) (row : Row) :
  In row (select_rows f d)
  <-> exists p r,
      In p (table_rows (PEOPLE d))
      /\ In r (table_rows (DEPARTMENTS d))
      /\ P_DEPARTMENT_ID p = D_ID r
      /\ where_holds f p = true
      /\ row = joined p r.
Proof.
  unfold select_rows. rewrite in_flat_map. split.
  - intros [p [Hp Hrow]]. destruct (where_holds f p) eqn:Hw; [|destruct Hrow].
    apply in_map_iff in Hrow. destruct Hrow as [r [Hj Hr]].
    apply filter_In in Hr. destruct Hr as [Hr Heq].
    apply String.eqb_eq in Heq. exists p, r. auto.
  - intros [p [r [Hp [Hr [Heq [Hw ->]]]]]]. exists p. split; [assumption|].
    rewrite Hw. apply in_map. apply filter_In. split; [assumption|].
    now apply String.eqb_eq.
Qed.

(** Once the statement is prepared, the handler answers 200 with a list,
    logs the error of [stmt.all()] if there is one, and closes the handle:
    what does hold of C1 and C9. *)
Lemma handler_prepared (req : Endpoint.NextApiRequest) (fault : option Error)
      (w : World) (stmt : Where) (c : Conn) :
  prepare_select (Endpoint.sql req) (connect (file w)) = Some (Ok stmt, c) ->
  Endpoint.handler req fault w
  = Some {| Endpoint.completion := Returned;
            Endpoint.response :=
              Some {| Endpoint.status := 200;
                      Endpoint.json :=
                        {| Endpoint.results :=
                             match fault with
                             | None => map Endpoint.personOfRow
                                           (select_rows stmt (file w))
                             | Some _ => []
                             end |} |};
            Endpoint.world :=
              {| file := file w;
                 openHandles := openHandles w;
                 console := match fault with
                            | None => console w
                            | Some e => console w ++ [LogError e]
                            end |} |}.
Proof.
  intros Hprep. pose proof (prepare_select_conn _ _ Hprep) as ->.
  unfold Endpoint.handler. rewrite Hprep.
  unfold Endpoint.tryBlock, bind, all, ret.
  destruct fault as [e|]; [reflexivity|]. simpl.
  destruct (select_rows stmt (file w)); reflexivity.
Qed.

Lemma sql_without_search (req : Endpoint.NextApiRequest) :
  Endpoint.search req = Endpoint.Absent
  \/ Endpoint.search req = Endpoint.Single "" ->
  Endpoint.sql req = "".
Proof.
  unfold Endpoint.sql, Endpoint.searchParam. now intros [-> | ->].
Qed.

(** The handler on a statement without WHERE clause: the records of the
    whole join. *)
Lemma handler_without_where
        (req : Endpoint.NextApiRequest) (w : World)
        (depts : list DeptRow) (people : list PersonRow) :
  Endpoint.sql req = "" ->
  DEPARTMENTS (file w) = Some depts ->
  PEOPLE (file w) = Some people ->
  exists recs,
    Endpoint.handler req None w
    = Some {| Endpoint.completion := Returned;
              Endpoint.response :=
                Some {| Endpoint.status := 200;
                        Endpoint.json := {| Endpoint.results := recs |} |};
              Endpoint.world := w |}
    /\ forall rec,
        In rec recs
        <-> exists p d,
            In p people /\ In d depts /\ P_DEPARTMENT_ID p = D_ID d
            /\ rec = {| pr_id := P_ID p;
                        pr_name := P_NAME p;
                        pr_title := None;
                        pr_avatar := Some {| url := P_AVATAR_URL p |};
                        pr_department :=
                          Some {| dr_id := Some (D_ID d);
                                  dr_name := D_NAME d |} |}.
Proof.
  intros Hsql Hd Hp.
  exists (map Endpoint.personOfRow (select_rows NoWhere (file w))). split.
  - rewrite (handler_prepared req None w (stmt := NoWhere) (c := connect (file w))).
    + destruct w; reflexivity.
    + unfold prepare_select. rewrite Hsql. simpl. rewrite Hd, Hp. reflexivity.
  - intros rec. rewrite in_map_iff. split.
    + intros [row [<- Hrow]]. apply select_rows_In in Hrow.
      destruct Hrow as [p [d [Hp' [Hd' [Heq [_ ->]]]]]].
      rewrite Hp in Hp'. rewrite Hd in Hd'. exists p, d. auto.
    + intros [p [d [Hp' [Hd' [Heq ->]]]]]. exists (joined p d).
      split; [reflexivity|]. apply select_rows_In. exists p, d.
      rewrite Hp, Hd. auto.
Qed.

(** C6.  No filter.  When the search parameter is absent or empty and both
    tables are there, the endpoint returns, for every pair of a person and
    a department row with the person's DEPARTMENT_ID, the record
    {id, name, avatar: {url}, department: {id, name}}, and nothing else;
    the handle is closed and nothing is logged. *)
Theorem no_filter_returns_all
        (req : Endpoint.NextApiRequest) (w : World)
        (depts : list DeptRow) (people : list PersonRow) :
  Endpoint.search req = Endpoint.Absent
  \/ Endpoint.search req = Endpoint.Single "" ->
  DEPARTMENTS (file w) = Some depts ->
  PEOPLE (file w) = Some people ->
  exists recs,
    Endpoint.handler req None w
    = Some {| Endpoint.completion := Returned;
              Endpoint.response :=
                Some {| Endpoint.status := 200;
                        Endpoint.json := {| Endpoint.results := recs |} |};
              Endpoint.world := w |}
    /\ forall rec,
        In rec recs
        <-> exists p d,
            In p people /\ In d depts /\ P_DEPARTMENT_ID p = D_ID d
            /\ rec = {| pr_id := P_ID p;
                        pr_name := P_NAME p;
                        pr_title := None;
                        pr_avatar := Some {| url := P_AVATAR_URL p |};
                        pr_department :=
                          Some {| dr_id := Some (D_ID d);
                                  dr_name := D_NAME d |} |}.
Proof.
  intros Hsearch. apply handler_without_where.
  now apply sql_without_search.
Qed.

Lemma department_id_by_name_some (depts : list DeptRow) (n did : string) :
  department_id_by_name depts n = Some did ->
  exists d, In d depts /\ D_NAME d = n /\ D_ID d = did.
Proof.
  unfold department_id_by_name.
  destruct (find (fun r => String.eqb (D_NAME r) n) depts) as [d|] eqn:E;
    [|discriminate].
  simpl. intros H. inversion H; subst. apply find_some in E.
  destruct E as [Hin Heq]. apply String.eqb_eq in Heq. eauto.
Qed.

(** C7.  The department of a person is found by name.  After a run, from
    a file with unique keys, whose [try] block ends normally, the row
    stored for a fetched person carries as DEPARTMENT_ID the ID that the
    lookup by the person's department name gives, and the endpoint, asked
    without filter, returns the person with that ID and that name as
    department, in every record it returns for the person. *)
Theorem person_department_resolved_by_name
        (result : QueryResult) (w : World) (people : list PersonRecord)
        (p : PersonRecord) (dr : DepartmentRef) :
  NoDup (map D_ID (table_rows (DEPARTMENTS (file w)))) ->
  NoDup (map P_ID (table_rows (PEOPLE (file w)))) ->
  loaded result w ->
  allPeople result = Some people ->
  In p people ->
  pr_department p = Some dr ->
  exists did row recs,
    department_id_by_name
      (table_rows (DEPARTMENTS (file (after_run result w)))) (dr_name dr)
    = Some did
    /\ In row (table_rows (PEOPLE (file (after_run result w))))
    /\ P_ID row = pr_id p
    /\ P_DEPARTMENT_ID row = did
    /\ Endpoint.handler {| Endpoint.search := Endpoint.Absent |} None
                        (after_run result w)
       = Some {| Endpoint.completion := Returned;
                 Endpoint.response :=
                   Some {| Endpoint.status := 200;
                           Endpoint.json := {| Endpoint.results := recs |} |};
                 Endpoint.world := after_run result w |}
    /\ In {| pr_id := pr_id p;
             pr_name := pr_name p;
             pr_title := None;
             pr_avatar := Some {| url := P_AVATAR_URL row |};
             pr_department := Some {| dr_id := Some did;
                                      dr_name := dr_name dr |} |} recs
    /\ forall rec,
        In rec recs -> pr_id rec = pr_id p ->
        pr_department rec = Some {| dr_id := Some did; dr_name := dr_name dr |}.
Proof.
  intros Hnd_d Hnd_p Hloaded Hpeople Hin Hdept. unfold loaded in Hloaded.
  unfold after_run. rewrite main_fetched. simpl.
  destruct (tryBlock_cases result (file w))
    as [[e [_ [Hout _]]]
       | [ds [depts [_ [_ [_ [Hfile_d [_ [Hnodup_d Hpeople']]]]]]]]];
    [rewrite Hloaded in Hout; discriminate|].
  destruct Hpeople' as [[e [Hout _]] | [_ [l [added [Hl [Hfile_p [Hall Hnodup_p]]]]]]];
    [rewrite Hloaded in Hout; discriminate|].
  assert (l = people) by congruence. subst l.
  specialize (Hnodup_d Hnd_d). specialize (Hnodup_p Hnd_p).
  destruct (Forall2_In_l (Loader.personParams p) Hall (in_map _ _ _ Hin))
    as [row [Hrow [Hid [Hname [Hurl [n [Hn Hfind]]]]]]].
  simpl in Hid, Hname, Hn. rewrite Hdept in Hn. simpl in Hn.
  inversion Hn; subst n. clear Hn.
  destruct (department_id_by_name_some _ _ Hfind) as [d0 [Hd0 [Hd0n Hd0i]]].
  set (w' := {| file := committed (snd (Loader.tryBlock result (connect (file w))));
                openHandles := openHandles w;
                console := console w ++ [LogInfo Loader.success_message] |}).
  destruct (handler_without_where {| Endpoint.search := Endpoint.Absent |} w'
              eq_refl Hfile_d Hfile_p) as [recs [Hrun Hrecs]].
  rewrite Hloaded. fold w'.
  exists (P_DEPARTMENT_ID row), row, recs.
  rewrite Hfile_d, Hfile_p. simpl.
  assert (Hrow' : In row (table_rows (PEOPLE (file w)) ++ added))
    by (apply in_or_app; now right).
  repeat split; try assumption.
  - apply Hrecs. exists row, d0. rewrite Hid, Hname, Hd0n, Hd0i. auto.
  - intros rec Hrec Hrid. apply Hrecs in Hrec.
    destruct Hrec as [p' [d' [Hp' [Hd' [Heq ->]]]]]. simpl in *.
    assert (p' = row).
    { apply (NoDup_key P_ID _ p' row Hnodup_p Hp' Hrow'). congruence. }
    subst p'.
    assert (d' = d0).
    { apply (NoDup_key D_ID _ d' d0 Hnodup_d Hd' Hd0). congruence. }
    subst d'. rewrite Hd0n, Hd0i. reflexivity.
Qed.

(** C1, where the code departs from it.  The statement is prepared between
    the opening of the handle and the [try].  A search value that is a
    single quote makes the text [... LIKE '%'%'], whose last quote opens a
    literal that never ends: [db.prepare] throws, the exception leaves the
    handler, no response is sent and nothing is logged.  This holds whatever
    the file contains. *)
Theorem quote_in_search_escapes_handler (fault : option Error) (w : World) :
  exists run,
    Endpoint.handler {| Endpoint.search := Endpoint.Single "'" |} fault w
    = Some run
    /\ Endpoint.completion run = Thrown SqliteSyntax
    /\ Endpoint.response run = None
    /\ console (Endpoint.world run) = console w.
Proof. eexists. repeat split. Qed.

(** C9, where the code departs from it.  On the same request the handle
    opened by the handler is still open when the exception leaves it. *)
Theorem quote_in_search_leaves_handle_open (fault : option Error) (w : World) :
  exists run,
    Endpoint.handler {| Endpoint.search := Endpoint.Single "'" |} fault w
    = Some run
    /\ openHandles (Endpoint.world run) = S (openHandles w).
Proof. eexists. split; reflexivity. Qed.

(** The same happens on any request when the tables were never created. *)
Lemma missing_tables_escape_handler (req : Endpoint.NextApiRequest)
      (fault : option Error) (w : World) :
  Endpoint.search req = Endpoint.Absent ->
  file w = empty_file ->
  exists run,
    Endpoint.handler req fault w = Some run
    /\ Endpoint.completion run = Thrown SqliteNoTable
    /\ Endpoint.response run = None
    /\ openHandles (Endpoint.world run) = S (openHandles w).
Proof.
  intros Hs Hf. unfold Endpoint.handler, prepare_select.
  rewrite (sql_without_search req (or_introl Hs)). simpl. rewrite Hf. simpl.
  eexists. repeat split.
Qed.

(** ** The filter *)

(** C5, where the code departs from it.  The search value goes into the
    LIKE pattern as it is, so [_] stands for any one character: the search
    for an underscore returns Bob, whose name contains none. *)
Theorem underscore_search_returns_bob :
  exists run recs rec,
    Endpoint.handler {| Endpoint.search := Endpoint.Single "_" |} None
                     one_person_world
    = Some run
    /\ Endpoint.response run
       = Some {| Endpoint.status := 200;
                 Endpoint.json := {| Endpoint.results := recs |} |}
    /\ In rec recs
    /\ pr_name rec = "Bob"
    /\ ~ contains "_" "Bob".
Proof.
  do 3 eexists. split; [reflexivity|]. split; [reflexivity|].
  split; [left; reflexivity|]. split; [reflexivity|].
  intros [pre [post H]].
  destruct pre as [|a [|b [|c [|d pre]]]]; simpl in H; try discriminate;
    inversion H.
Qed.

(** *** What LIKE does with a search value without wildcards *)

Lemma string_app_assoc (a b c : string) :
  ((a ++ b) ++ c = a ++ (b ++ c))%string.
Proof. induction a as [|x a IH]; simpl; [reflexivity | now rewrite IH]. Qed.

Lemma string_app_nil_r (a : string) : (a ++ "" = a)%string.
Proof. induction a as [|x a IH]; simpl; [reflexivity | now rewrite IH]. Qed.

Lemma like_percent_unfold (pat t : string) :
  like (String "%" pat) t
  = like pat t
    || match t with
       | EmptyString => false
       | String _ t' => like (String "%" pat) t'
       end.
Proof. destruct t; reflexivity. Qed.

Lemma like_char_unfold (c : ascii) (pat t : string) :
  Ascii.eqb c "%"%char = false ->
  Ascii.eqb c "_"%char = false ->
  like (String c pat) t
  = match t with
    | EmptyString => false
    | String d t' => Ascii.eqb (lower c) (lower d) && like pat t'
    end.
Proof. intros H1 H2. simpl. rewrite H1, H2. reflexivity. Qed.

(** [%] at the head of a pattern skips any prefix. *)
Lemma like_percent (pat t : string) :
  like (String "%" pat) t = true
  <-> exists t1 t2, t = (t1 ++ t2)%string /\ like pat t2 = true.
Proof.
  induction t as [|d t IH]; rewrite like_percent_unfold.
  - rewrite orb_false_r. split.
    + intros H. exists EmptyString, EmptyString. auto.
    + intros [t1 [t2 [E H]]]. destruct t1; [|discriminate].
      simpl in E. now subst t2.
  - rewrite orb_true_iff, IH. split.
    + intros [H | [t1 [t2 [E H]]]].
      * exists EmptyString, (String d t). auto.
      * exists (String d t1), t2. simpl. now rewrite E.
    + intros [t1 [t2 [E H]]]. destruct t1 as [|x t1]; simpl in E.
      * left. now subst t2.
      * right. inversion E; subst. eauto.
Qed.

(** A run of ordinary characters at the head of a pattern matches a prefix
    that is equal to it up to case. *)
Lemma like_literal (s : string) :
  no_wildcard s = true ->
  forall pat t,
    like (s ++ pat) t = true
    <-> exists t1 t2,
        t = (t1 ++ t2)%string /\ fold_case t1 = fold_case s
        /\ like pat t2 = true.
Proof.
  induction s as [|c s IH]; intros Hplain pat t.
  - simpl. split.
    + intros H. exists EmptyString, t. auto.
    + intros [t1 [t2 [E [Hf H]]]]. destruct t1; [|discriminate].
      simpl in E. now subst t2.
  - simpl in Hplain. apply andb_prop in Hplain. destruct Hplain as [Hc Hs].
    apply andb_prop in Hc. destruct Hc as [H1 H2].
    apply negb_true_iff in H1, H2.
    change (String c s ++ pat)%string with (String c (s ++ pat)%string).
    rewrite like_char_unfold by assumption. destruct t as [|d t].
    + split; [discriminate|].
      intros [t1 [t2 [E [Hf _]]]]. destruct t1; discriminate.
    + rewrite andb_true_iff, (IH Hs). split.
      * intros [Hcd [t1 [t2 [E [Hf H]]]]]. apply Ascii.eqb_eq in Hcd.
        exists (String d t1), t2. simpl. rewrite E, Hf, Hcd. auto.
      * intros [t1 [t2 [E [Hf H]]]]. destruct t1 as [|x t1]; [discriminate|].
        simpl in E, Hf. inversion E; subst. inversion Hf.
        split; [apply Ascii.eqb_eq; congruence|]. eauto.
Qed.

Lemma like_percent_only (t : string) : like "%" t = true.
Proof. apply like_percent. exists t, EmptyString. now rewrite string_app_nil_r. Qed.

(** The pattern the handler builds from a value without wildcards. *)
Lemma like_contains_nocase (s name : string) :
  no_wildcard s = true ->
  like ("%" ++ s ++ "%") name = true <-> contains_nocase s name.
Proof.
  intros Hplain. change ("%" ++ s ++ "%")%string with (String "%" (s ++ "%")).
  rewrite like_percent. unfold contains_nocase. split.
  - intros [pre [rest [E H]]]. apply (like_literal s Hplain) in H.
    destruct H as [mid [post [E' [Hf _]]]]. exists pre, mid, post.
    subst. auto.
  - intros [pre [mid [post [E Hf]]]]. exists pre, (mid ++ post)%string.
    split; [assumption|]. apply (like_literal s Hplain).
    exists mid, post. split; [reflexivity|]. split; [assumption|].
    apply like_percent_only.
Qed.

Lemma has_char_app (a : ascii) (s t : string) :
  has_char a (s ++ t) = has_char a s || has_char a t.
Proof.
  induction s as [|c s IH]; simpl; [reflexivity|].
  now rewrite IH, orb_assoc.
Qed.

(** A text without quote is a literal up to the closing quote. *)
Lemma lex_string_plain (s : string) :
  has_char quote s = false ->
  lex_string (s ++ "'") = Some (s, EmptyString).
Proof.
  induction s as [|c s IH]; intros H; [reflexivity|].
  simpl in H. apply orb_false_elim in H. destruct H as [Hc Hs].
  change (String c s ++ "'")%string with (String c (s ++ "'")%string).
  cbn [lex_string]. rewrite Hc, (IH Hs). reflexivity.
Qed.

(** The text the handler appends for a value without quote and without
    NUL is the clause [WHERE P.NAME LIKE '%s%']. *)
Lemma parse_where_plain (s : string) :
  has_char quote s = false ->
  has_char nul s = false ->
  parse_where (" WHERE P.NAME LIKE '%" ++ s ++ "%'")
  = Parsed (WhereLike ("%" ++ s ++ "%")).
Proof.
  intros Hq Hn. unfold parse_where.
  change (" WHERE P.NAME LIKE '%" ++ s ++ "%'")%string
    with (" WHERE P.NAME LIKE '" ++ ("%" ++ s ++ "%'"))%string.
  rewrite has_char_app.
  change (has_char nul " WHERE P.NAME LIKE '") with false.
  change ("%" ++ s ++ "%'")%string with (String "%" (s ++ "%'")%string).
  cbn [has_char orb]. rewrite has_char_app, Hn.
  cbn [String.eqb String.append strip_prefix Ascii.eqb Bool.eqb has_char orb].
  replace (String "%" (s ++ "%'"))%string
    with (("%" ++ s ++ "%") ++ "'")%string
    by (simpl; now rewrite string_app_assoc).
  rewrite lex_string_plain; [reflexivity|].
  simpl. rewrite has_char_app, Hq. reflexivity.
Qed.



(** ** Integrity of the file *)

Lemma Forall2_In_r {A B} (R : A -> B -> Prop) (l : list A) (l' : list B) y :
  Forall2 R l l' -> In y l' -> exists x, In x l /\ R x y.
Proof.
  induction 1 as [|a b l l' Hab _ IH]; intros Hin; [destruct Hin|].
  destruct Hin as [-> | Hin].
  - exists a. split; [now left | assumption].
  - destruct (IH Hin) as [x [Hx Hr]]. exists x. split; [now right | assumption].
Qed.

(** A run of the Loader keeps the integrity of the file, however it ends. *)
Lemma main_preserves_integrity (fetched : Result QueryResult) (w : World) :
  integrity (file w) -> integrity (file (snd (Loader.main fetched w))).
Proof.
  intros [Hcl [Hnd [Hnp Hfk]]]. destruct fetched as [result|e];
    [|repeat split; assumption].
  rewrite main_fetched. simpl.
  destruct (tryBlock_cases result (file w))
    as [[e [_ [_ Hfile]]]
       | [ds [depts [_ [_ [Hdepts [Hfile [Hcl' [Hnd' Hpeople]]]]]]]]].
  - rewrite Hfile. repeat split; assumption.
  - unfold integrity. rewrite Hfile. simpl.
    assert (Hgrow : forall i, In i (map D_ID (table_rows (DEPARTMENTS (file w)))) ->
                              In i (map D_ID depts)).
    { intros i Hi. rewrite Hdepts, map_app. apply in_or_app. now left. }
    destruct Hpeople as [[e [_ Hp]] | [_ [l [added [_ [Hp [Hall Hnp']]]]]]];
      rewrite Hp; simpl.
    + repeat split; auto.
    + repeat split; auto. intros p Hin. apply in_app_or in Hin.
      destruct Hin as [Hin | Hin]; [auto|].
      destruct (Forall2_In_r p Hall Hin) as [x [_ [_ [_ [_ [n [_ Hfind]]]]]]].
      destruct (department_id_by_name_some _ _ Hfind) as [d [Hd [_ <-]]].
      now apply in_map.
Qed.

(** A request leaves the file as it is. *)
Lemma handler_keeps_file (req : Endpoint.NextApiRequest) (fault : option Error)
      (w : World) (run : Endpoint.Run) :
  Endpoint.handler req fault w = Some run -> file (Endpoint.world run) = file w.
Proof.
  destruct (prepare_select (Endpoint.sql req) (connect (file w)))
    as [[[stmt|e] c]|] eqn:Hprep.
  - rewrite (handler_prepared req fault w Hprep). intros H.
    inversion H; subst. reflexivity.
  - unfold Endpoint.handler. rewrite Hprep. intros H.
    inversion H; subst. reflexivity.
  - unfold Endpoint.handler. rewrite Hprep. discriminate.
Qed.

(** The hypotheses of C3 and C7 on the file hold in every world that the
    two programs produce from scratch. *)
Lemma reachable_integrity (w : World) : reachable w -> integrity (file w).
Proof.
  induction 1 as [w Hw | fetched w _ IH | req fault w run _ IH Hrun].
  - rewrite Hw. repeat split; simpl; try apply NoDup_nil.
    + intros r q [].
    + intros p [].
  - now apply main_preserves_integrity.
  - now rewrite (handler_keeps_file _ _ _ Hrun).
Qed.

(** ** The theorems at the sample data *)


Lemma parent_exists_after_commit_witness :
  In "d0" (map D_ID (table_rows (DEPARTMENTS
                                   (file (snd (Loader.main (Ok feed) fresh)))))).
Proof.
  apply (@parent_exists_after_commit feed [engineering; sales; hq] fresh
           engineering {| parent_name := "HQ"; parent_id := "d0" |}).
  - intros r q [].
  - reflexivity.
  - reflexivity.
  - left. reflexivity.
  - reflexivity.
  - discriminate.
Defined.

Lemma unmatched_department_aborts_people_witness :
  PEOPLE (file (snd (Loader.main (Ok feed_unmatched) fresh))) = Some [].
Proof.
  apply (@unmatched_department_aborts_people feed_unmatched [bob; zed] zed
           "Nowhere" fresh).
  - reflexivity.
  - right. left. reflexivity.
  - reflexivity.
  - simpl. intros d [<- | [<- | [<- | []]]]; discriminate.
Defined.

Lemma falsy_parent_and_avatar_stored_null_witness :
  In {| D_ID := "d2"; D_NAME := "Sales"; D_PARENT := None |}
     (table_rows (DEPARTMENTS (file (snd (Loader.main (Ok feed) fresh)))))
  /\ exists row,
      In row (table_rows (PEOPLE (file (snd (Loader.main (Ok feed) fresh)))))
      /\ P_ID row = "p1" /\ P_NAME row = "Bob" /\ P_AVATAR_URL row = None.
Proof.
  assert (L : loaded feed fresh) by reflexivity.
  destruct (falsy_parent_and_avatar_stored_null L) as [Hd Hp]. split.
  - apply (Hd [engineering; sales; hq] sales
              {| parent_name := ""; parent_id := "" |});
      [reflexivity | right; left; reflexivity | reflexivity | reflexivity].
  - apply (Hp [bob; anna] bob); [reflexivity | left; reflexivity | reflexivity].
Defined.

Lemma no_filter_returns_all_witness :
  exists recs,
    Endpoint.handler {| Endpoint.search := Endpoint.Single "" |} None
                     one_person_world
    = Some {| Endpoint.completion := Returned;
              Endpoint.response :=
                Some {| Endpoint.status := 200;
                        Endpoint.json := {| Endpoint.results := recs |} |};
              Endpoint.world := one_person_world |}.
Proof.
  destruct (@no_filter_returns_all
              {| Endpoint.search := Endpoint.Single "" |} one_person_world
              [{| D_ID := "d1"; D_NAME := "Engineering"; D_PARENT := None |}]
              [{| P_ID := "p1"; P_NAME := "Bob"; P_AVATAR_URL := None;
                  P_DEPARTMENT_ID := "d1" |}]
              (or_intror eq_refl) eq_refl eq_refl) as [recs [H _]].
  exists recs. exact H.
Defined.

Lemma person_department_resolved_by_name_witness :
  exists did recs,
    department_id_by_name
      (table_rows (DEPARTMENTS (file (after_run feed fresh)))) "Engineering"
    = Some did
    /\ In {| pr_id := "p1"; pr_name := "Bob"; pr_title := None;
             pr_avatar := Some {| url := None |};
             pr_department := Some {| dr_id := Some did;
                                      dr_name := "Engineering" |} |} recs.
Proof.
  destruct (@person_department_resolved_by_name feed fresh [bob; anna] bob
              {| dr_id := None; dr_name := "Engineering" |})
    as [did [row [recs [Hfind [Hrow [_ [_ [_ [Hin _]]]]]]]]].
  - simpl. constructor.
  - simpl. constructor.
  - reflexivity.
  - reflexivity.
  - left. reflexivity.
  - reflexivity.
  - exists did, recs. split; [exact Hfind|].
    simpl in Hrow. destruct Hrow as [<- | [<- | []]]; exact Hin.
Defined.

(** * Further properties of the two programs *)

(** ** When the departments transaction commits *)

Lemma insertDepartmentRow_dup (p : DeptParams) (c : Conn) (rows : list DeptRow) :
  DEPARTMENTS (db c) = Some rows ->
  has_dept_id rows (dp_id p) = true ->
  insertDepartmentRow_run p c = (Throw ConstraintPrimaryKey, c).
Proof.
  intros Hd Hdup. unfold insertDepartmentRow_run. now rewrite Hd, Hdup.
Qed.

Lemma insertDepartmentRow_fresh (p : DeptParams) (c : Conn)
      (rows : list DeptRow) (snap : Database) :
  DEPARTMENTS (db c) = Some rows ->
  tx c = Some snap ->
  has_dept_id rows (dp_id p) = false ->
  exists c',
    insertDepartmentRow_run p c = (Ok tt, c')
    /\ DEPARTMENTS (db c') = Some (rows ++ [dept_row p])
    /\ tx c' = Some snap.
Proof.
  intros Hd Ht Hfresh. unfold insertDepartmentRow_run.
  rewrite Hd, Ht, Hfresh. eexists. repeat split.
Qed.

(** The loop goes through exactly when the keys are new and distinct. *)
Lemma for_of_departments_ok (l : list DeptParams) :
  forall (c : Conn) (rows : list DeptRow) (snap : Database),
    DEPARTMENTS (db c) = Some rows ->
    tx c = Some snap ->
    fst (for_of l insertDepartmentRow_run c) = Ok tt
    <-> NoDup (map dp_id l)
        /\ forall p, In p l -> has_dept_id rows (dp_id p) = false.
Proof.
  induction l as [|p l IH]; intros c rows snap Hd Ht.
  - simpl. split; [|reflexivity]. intros _. split; [constructor | intros p []].
  - simpl for_of. unfold bind.
    destruct (has_dept_id rows (dp_id p)) eqn:Hp.
    + rewrite (insertDepartmentRow_dup p c Hd Hp). simpl. split; [discriminate|].
      intros [_ Hfresh]. rewrite (Hfresh p (or_introl eq_refl)) in Hp.
      discriminate.
    + destruct (insertDepartmentRow_fresh p c Hd Ht Hp) as [c1 [E [Hd1 Ht1]]].
      rewrite E. rewrite (IH c1 _ snap Hd1 Ht1). simpl map.
      rewrite NoDup_cons_iff. split.
      * intros [Hnd Hfresh]. split; [split; [|assumption]|].
        -- intros Hin. apply in_map_iff in Hin. destruct Hin as [q [Hq Hin]].
           specialize (Hfresh q Hin). rewrite has_dept_id_app in Hfresh.
           apply orb_false_elim in Hfresh. destruct Hfresh as [_ Hne].
           simpl in Hne. rewrite Hq, String.eqb_refl in Hne. discriminate.
        -- intros q [<- | Hin]; [assumption|].
           specialize (Hfresh q Hin). rewrite has_dept_id_app in Hfresh.
           now apply orb_false_elim in Hfresh.
      * intros [[Hnotin Hnd] Hfresh]. split; [assumption|].
        intros q Hin. rewrite has_dept_id_app.
        rewrite (Hfresh q (or_intror Hin)). simpl. rewrite orb_false_r.
        apply String.eqb_neq. intros Heq. apply Hnotin. rewrite Heq.
        now apply in_map.
Qed.

(** The transaction commits exactly when, besides, no row dangles at the
    end. *)
Lemma insertDepartments_ok (l : list DeptParams) (c : Conn)
      (rows : list DeptRow) :
  tx c = None ->
  foreignKeys c = true ->
  DEPARTMENTS (db c) = Some rows ->
  fk_closed rows ->
  fst (Loader.insertDepartments l c) = Ok tt
  <-> NoDup (map dp_id l)
      /\ (forall p, In p l -> has_dept_id rows (dp_id p) = false)
      /\ fk_closed (rows ++ map dept_row l).
Proof.
  intros Ht Hfk Hd Hclosed.
  pose proof (for_of_departments_ok l (begin c) (rows := rows) (snap := db c)
                Hd eq_refl) as Hloop.
  unfold Loader.insertDepartments, transaction. rewrite Ht.
  unfold finally, bind.
  destruct (for_of l insertDepartmentRow_run (begin c)) as [r1 c1] eqn:Hrun.
  destruct (for_of_departments l (begin c) (rows := rows) (snap := db c)
              Hd eq_refl Hrun) as [Ht1 [_ [Hf1 Hr1]]].
  simpl in Hloop, Hf1. destruct r1 as [[]|e].
  - destruct Hr1 as [_ [Hcount _]].
    assert (Hc : deferredCons c1
                 = Z.of_nat (List.length (dangling (rows ++ map dept_row l)))).
    { apply Hcount; [exact Hfk|]. simpl.
      apply dangling_nil_closed in Hclosed. now rewrite Hclosed. }
    destruct Hloop as [Hloop _]. specialize (Hloop eq_refl).
    destruct Hloop as [Hnd Hfresh].
    unfold commit. rewrite Hf1, Hfk, Hc. simpl.
    destruct (dangling (rows ++ map dept_row l)) as [|r rest] eqn:Hdang.
    + simpl. split; [|reflexivity]. intros _.
      repeat split; try assumption. now apply dangling_nil_closed.
    + simpl. split; [discriminate|]. intros [_ [_ Hcl]].
      apply dangling_nil_closed in Hcl. congruence.
  - simpl. split; [discriminate|]. intros [Hnd [Hfresh _]].
    destruct Hloop as [_ Hloop]. specialize (Hloop (conj Hnd Hfresh)).
    discriminate.
Qed.

Lemma loadDepartments_some (result : QueryResult) (ds : list DepartmentNode)
      (f : Database) :
  allDepartments result = Some ds ->
  Loader.loadDepartments result (created f)
  = Loader.insertDepartments (map Loader.departmentParams ds) (created f).
Proof.
  intros Hds. unfold Loader.loadDepartments, bind. simpl. now rewrite Hds.
Qed.

(** When the departments transaction commits, told on the objects bound to
    the INSERT. *)
Lemma departmentsCommitted_params
      (result : QueryResult) (ds : list DepartmentNode) (w : World) :
  fk_closed (table_rows (DEPARTMENTS (file w))) ->
  allDepartments result = Some ds ->
  departmentsCommitted result w
  <-> NoDup (map dp_id (map Loader.departmentParams ds))
      /\ (forall p, In p (map Loader.departmentParams ds) ->
                    has_dept_id (table_rows (DEPARTMENTS (file w))) (dp_id p)
                    = false)
      /\ fk_closed (table_rows (DEPARTMENTS (file w))
                    ++ map dept_row (map Loader.departmentParams ds)).
Proof.
  intros Hclosed Hds. rewrite departmentsCommitted_created.
  rewrite (loadDepartments_some result (file w) Hds).
  apply (insertDepartments_ok (map Loader.departmentParams ds)
           (created (file w)) (rows := table_rows (DEPARTMENTS (file w)))
           eq_refl eq_refl eq_refl Hclosed).
Qed.

(** The departments transaction commits exactly when the identifiers of the
    feed are pairwise distinct, none of them is in the table yet, and every
    parent identifier that is kept is an ID of the table as it would be
    after the inserts (the table being consistent before). *)
Theorem departments_commit_iff
        (result : QueryResult) (ds : list DepartmentNode) (w : World) :
  fk_closed (table_rows (DEPARTMENTS (file w))) ->
  allDepartments result = Some ds ->
  departmentsCommitted result w
  <-> NoDup (map dn_id ds)
      /\ (forall d, In d ds ->
                    ~ In (dn_id d) (map D_ID (table_rows (DEPARTMENTS (file w)))))
      /\ fk_closed (table_rows (DEPARTMENTS (file w))
                    ++ map dept_row (map Loader.departmentParams ds)).
Proof.
  intros Hclosed Hds.
  rewrite (@departmentsCommitted_params result ds w Hclosed Hds).
  rewrite map_map. simpl.
  split; intros [Hnd [Hfresh Hcl]]; repeat split; try assumption.
  - intros d Hin Hid. apply has_dept_id_In in Hid.
    pose proof (Hfresh (Loader.departmentParams d) (in_map _ _ _ Hin)) as E.
    simpl in E. congruence.
  - intros p Hin. apply in_map_iff in Hin. destruct Hin as [d [<- Hin]].
    simpl. destruct (has_dept_id (table_rows (DEPARTMENTS (file w))) (dn_id d))
      eqn:E; [|reflexivity].
    apply has_dept_id_In in E. now apply Hfresh in E.
Qed.

(** ** When the people transaction commits *)

Lemma department_id_by_name_found (depts : list DeptRow) (n : string) :
  (exists did, department_id_by_name depts n = Some did)
  <-> exists d, In d depts /\ D_NAME d = n.
Proof.
  split.
  - intros [did H]. destruct (department_id_by_name_some _ _ H) as [d [Hd [Hn _]]].
    eauto.
  - intros [d [Hd Hn]]. unfold department_id_by_name.
    destruct (find (fun r => String.eqb (D_NAME r) n) depts) as [r|] eqn:E.
    + simpl. eauto.
    + apply (find_none _ _ E) in Hd. simpl in Hd.
      apply String.eqb_neq in Hd. contradiction.
Qed.

Lemma department_id_by_name_in (depts : list DeptRow) (n did : string) :
  department_id_by_name depts n = Some did -> has_dept_id depts did = true.
Proof.
  intros H. destruct (department_id_by_name_some _ _ H) as [d [Hd [_ <-]]].
  apply has_dept_id_In. now apply in_map.
Qed.

(** One INSERT goes through exactly when the key is new and the department
    name is found; the immediate foreign key never fails, since the ID
    comes from the table. *)
Lemma insertPersonRow_ok (p : PersonParams) (c : Conn)
      (people : list PersonRow) (depts : list DeptRow) :
  PEOPLE (db c) = Some people ->
  DEPARTMENTS (db c) = Some depts ->
  fst (insertPersonRow_run p c) = Ok tt
  <-> has_person_id people (pp_id p) = false
      /\ exists n, pp_department_name p = Some n
                   /\ exists d, In d depts /\ D_NAME d = n.
Proof.
  intros Hp Hd. unfold insertPersonRow_run. rewrite Hp, Hd.
  destruct (pp_department_name p) as [n|].
  - destruct (department_id_by_name depts n) as [did|] eqn:Hdid.
    + rewrite (department_id_by_name_in _ _ Hdid). simpl.
      rewrite andb_false_r.
      destruct (has_person_id people (pp_id p)); simpl.
      * split; [discriminate | intros [H _]; discriminate].
      * split; [|reflexivity]. intros _. split; [reflexivity|].
        exists n. split; [reflexivity|].
        apply department_id_by_name_found. eauto.
    + simpl. split; [discriminate|]. intros [_ [n' [Hn' Hex]]].
      inversion Hn'; subst n'. apply department_id_by_name_found in Hex.
      destruct Hex as [did Hex]. congruence.
  - simpl. split; [discriminate|]. intros [_ [n [Hn _]]]. discriminate.
Qed.

Lemma for_of_people_ok (l : list PersonParams) :
  forall (c : Conn) (people : list PersonRow) (depts : list DeptRow),
    PEOPLE (db c) = Some people ->
    DEPARTMENTS (db c) = Some depts ->
    fst (for_of l insertPersonRow_run c) = Ok tt
    <-> NoDup (map pp_id l)
        /\ forall p, In p l ->
             has_person_id people (pp_id p) = false
             /\ exists n, pp_department_name p = Some n
                          /\ exists d, In d depts /\ D_NAME d = n.
Proof.
  induction l as [|p l IH]; intros c people depts Hp Hd.
  - simpl. split; [|reflexivity]. intros _. split; [constructor | intros p []].
  - simpl for_of. unfold bind.
    pose proof (insertPersonRow_ok p c Hp Hd) as Hstep.
    destruct (insertPersonRow_step p c Hp Hd)
      as [[e E] | [c1 [row [E [Hst [Hfresh [Hp1 [Hd1 _]]]]]]]]; rewrite E in *.
    + simpl in *. split; [discriminate|]. intros [_ Hall].
      destruct Hstep as [_ Hstep].
      specialize (Hstep (Hall p (or_introl eq_refl))). discriminate.
    + simpl in Hstep. destruct Hstep as [Hstep _]. specialize (Hstep eq_refl).
      destruct Hst as [Hid _].
      rewrite (IH c1 _ depts Hp1 Hd1). simpl map. rewrite NoDup_cons_iff.
      assert (Happ : forall q, has_person_id (people ++ [row]) (pp_id q)
                               = has_person_id people (pp_id q)
                                 || String.eqb (pp_id p) (pp_id q)).
      { intros q. unfold has_person_id. rewrite existsb_app. simpl.
        now rewrite orb_false_r, Hid. }
      split.
      * intros [Hnd Hall]. split; [split; [|assumption]|].
        -- intros Hin. apply in_map_iff in Hin. destruct Hin as [q [Hq Hin]].
           destruct (Hall q Hin) as [Hf _]. rewrite Happ in Hf.
           apply orb_false_elim in Hf. destruct Hf as [_ Hne].
           rewrite Hq, String.eqb_refl in Hne. discriminate.
        -- intros q [<- | Hin]; [assumption|].
           destruct (Hall q Hin) as [Hf Hex]. rewrite Happ in Hf.
           apply orb_false_elim in Hf. now destruct Hf.
      * intros [[Hnotin Hnd] Hall]. split; [assumption|].
        intros q Hin. destruct (Hall q (or_intror Hin)) as [Hf Hex].
        split; [|assumption]. rewrite Happ, Hf. simpl.
        apply String.eqb_neq. intros Heq. apply Hnotin. rewrite Heq.
        now apply in_map.
Qed.

Lemma insertPeople_ok (l : list PersonParams) (c : Conn)
      (people : list PersonRow) (depts : list DeptRow) :
  tx c = None ->
  PEOPLE (db c) = Some people ->
  DEPARTMENTS (db c) = Some depts ->
  fst (Loader.insertPeople (Some l) c) = Ok tt
  <-> NoDup (map pp_id l)
      /\ forall p, In p l ->
           has_person_id people (pp_id p) = false
           /\ exists n, pp_department_name p = Some n
                        /\ exists d, In d depts /\ D_NAME d = n.
Proof.
  intros Ht Hp Hd.
  rewrite <- (for_of_people_ok l (begin c) (people := people) (depts := depts)
                Hp Hd).
  unfold Loader.insertPeople, transaction. rewrite Ht. unfold finally, bind.
  destruct (for_of l insertPersonRow_run (begin c)) as [r1 c1] eqn:Hrun.
  destruct (for_of_people l (begin c) (people := people) (depts := depts)
              Hp Hd Hrun) as [_ [_ [_ [Hc1 _]]]].
  simpl in Hc1. destruct r1 as [[]|e]; simpl.
  - unfold commit. rewrite Hc1. simpl. rewrite andb_false_r. simpl.
    split; reflexivity.
  - split; discriminate.
Qed.

(** Once the departments are committed, the whole run ends normally exactly
    when the identifiers of the fetched people are pairwise distinct, none
    is in PEOPLE yet, and every person names a department that is the NAME
    of a row of DEPARTMENTS. *)
Theorem run_succeeds_iff
        (result : QueryResult) (l : list PersonRecord) (w : World) :
  allPeople result = Some l ->
  departmentsCommitted result w ->
  loaded result w
  <-> NoDup (map pr_id l)
      /\ (forall p, In p l ->
                    ~ In (pr_id p) (map P_ID (table_rows (PEOPLE (file w)))))
      /\ (forall p, In p l ->
            exists dr d,
              pr_department p = Some dr
              /\ In d (table_rows (DEPARTMENTS (file (after_run result w))))
              /\ D_NAME d = dr_name dr).
Proof.
  intros Hl Hcommit. rewrite departmentsCommitted_created in Hcommit.
  unfold loaded, after_run in *.
  rewrite main_fetched. simpl. rewrite tryBlock_phases.
  destruct (Loader.loadDepartments result (created (file w))) as [r1 c1] eqn:H1.
  simpl in Hcommit. subst r1. cbv iota beta.
  destruct (loadDepartments_spec _ _ H1) as [Ht1 [_ [Hp1 Hr1]]].
  destruct Hr1 as [[_ [ds [_ [Hd1 _]]]] | [e [He _]]]; [|discriminate].
  destruct (Loader.loadPeople result c1) as [r2 c2] eqn:H2.
  destruct (loadPeople_spec _ _ Ht1 Hp1 Hd1 H2) as [Ht2 [Hd2 _]].
  cbn [fst snd]. rewrite (committed_autocommit _ Ht2), Hd2. simpl table_rows.
  assert (E : fst (Loader.loadPeople result c1)
              = fst (Loader.insertPeople (Some (map Loader.personParams l)) c1)).
  { unfold Loader.loadPeople, bind, prepare. rewrite Hp1, Hd1, Hl. reflexivity. }
  rewrite H2 in E. simpl in E. rewrite E.
  rewrite (insertPeople_ok (map Loader.personParams l) c1 Ht1 Hp1 Hd1).
  rewrite map_map. simpl.
  split.
  - intros [Hnd Hall]. split; [assumption|]. split.
    + intros p Hin Hid. apply has_person_id_In in Hid.
      destruct (Hall _ (in_map Loader.personParams _ _ Hin)) as [Hf _].
      simpl in Hf. congruence.
    + intros p Hin.
      destruct (Hall _ (in_map Loader.personParams _ _ Hin))
        as [_ [n [Hn [d [Hd Hname]]]]].
      simpl in Hn. destruct (pr_department p) as [dr|]; [|discriminate].
      simpl in Hn. inversion Hn; subst n. eauto.
  - intros [Hnd [Hfresh Hdept]]. split; [assumption|].
    intros q Hin. apply in_map_iff in Hin. destruct Hin as [p [<- Hin]].
    simpl. split.
    + destruct (has_person_id (table_rows (PEOPLE (file w))) (pr_id p)) eqn:E';
        [|reflexivity].
      apply has_person_id_In in E'. now apply Hfresh in E'.
    + destruct (Hdept p Hin) as [dr [d [Hdr [Hd Hname]]]].
      exists (dr_name dr). rewrite Hdr. simpl. eauto.
Qed.

(** ** What a run leaves in the file *)

Lemma stored_keys (depts : list DeptRow) (l : list PersonParams)
      (added : list PersonRow) :
  Forall2 (stored depts) l added ->
  map P_ID added = map pp_id l
  /\ map P_NAME added = map pp_name l
  /\ map P_AVATAR_URL added = map pp_avatar_url l.
Proof.
  induction 1 as [|p row l added [Hid [Hname [Hurl _]]] _ [IH1 [IH2 IH3]]];
    simpl; [auto|].
  now rewrite Hid, Hname, Hurl, IH1, IH2, IH3.
Qed.

(** The people go in as one transaction too.  After a run that fetched the
    list [l], PEOPLE holds either what it held before followed by one row
    per person of [l], in the order of the feed and with the identifier,
    the name and the avatar url (or NULL) of the person, or exactly what
    it held before. *)
Theorem people_transaction_atomic
        (result : QueryResult) (l : list PersonRecord) (w : World) :
  allPeople result = Some l ->
  (loaded result w
   /\ exists added,
       PEOPLE (file (after_run result w))
       = Some (table_rows (PEOPLE (file w)) ++ added)
       /\ map P_ID added = map pr_id l
       /\ map P_NAME added = map pr_name l
       /\ map P_AVATAR_URL added
          = map (fun p => pp_avatar_url (Loader.personParams p)) l)
  \/ (~ loaded result w
      /\ PEOPLE (file (after_run result w))
         = Some (table_rows (PEOPLE (file w)))).
Proof.
  intros Hl. unfold loaded, after_run. rewrite main_fetched. simpl.
  destruct (tryBlock_cases result (file w))
    as [[e [_ [Hout Hfile]]]
       | [ds [depts [_ [_ [_ [_ [_ [_ Hpeople]]]]]]]]].
  - right. rewrite Hout, Hfile. split; [discriminate | reflexivity].
  - destruct Hpeople as [[e [Hout Hp]] | [Hout [l' [added [Hl' [Hp [Hall _]]]]]]].
    + right. rewrite Hout, Hp. split; [discriminate | reflexivity].
    + left. split; [assumption|]. exists added. split; [assumption|].
      assert (l' = l) by congruence. subst l'.
      destruct (stored_keys Hall) as [H1 [H2 H3]].
      rewrite H1, H2, H3, !map_map. repeat split.
Qed.

(** The run as a whole is not atomic: when the departments are committed
    and the people transaction fails, the departments stay, PEOPLE is as
    before, one error is logged, and the handle is released. *)
Theorem departments_stay_when_people_fail
        (result : QueryResult) (ds : list DepartmentNode) (w : World) :
  allDepartments result = Some ds ->
  departmentsCommitted result w ->
  ~ loaded result w ->
  DEPARTMENTS (file (after_run result w))
  = Some (table_rows (DEPARTMENTS (file w))
          ++ map dept_row (map Loader.departmentParams ds))
  /\ PEOPLE (file (after_run result w)) = Some (table_rows (PEOPLE (file w)))
  /\ (exists e, console (after_run result w) = console w ++ [LogError e])
  /\ openHandles (after_run result w) = openHandles w.
Proof.
  intros Hds Hcommit Hnot. rewrite departmentsCommitted_created in Hcommit.
  unfold loaded, after_run in *.
  rewrite main_fetched. simpl.
  destruct (tryBlock_cases result (file w))
    as [[e [H1 _]]
       | [ds' [depts [_ [Hds' [Hdepts [Hfile [_ [_ Hpeople]]]]]]]]];
    [rewrite Hcommit in H1; discriminate|].
  assert (ds' = ds) by congruence. subst ds' depts.
  destruct Hpeople as [[e [Hout Hp]] | [Hout _]]; [|contradiction].
  rewrite Hout. repeat split; try assumption. eauto.
Qed.

Lemma insertDepartments_dup (p : DeptParams) (l : list DeptParams) (c : Conn)
      (rows : list DeptRow) :
  tx c = None ->
  DEPARTMENTS (db c) = Some rows ->
  has_dept_id rows (dp_id p) = true ->
  Loader.insertDepartments (p :: l) c
  = (Throw ConstraintPrimaryKey,
     {| db := db c; tx := None; deferredCons := 0;
        foreignKeys := foreignKeys c |}).
Proof.
  intros Ht Hd Hdup. unfold Loader.insertDepartments, transaction.
  rewrite Ht. unfold finally, bind. simpl for_of. unfold bind.
  rewrite (insertDepartmentRow_dup p (begin c) (rows := rows) Hd Hdup).
  reflexivity.
Qed.

(** Loading is not repeatable.  After a run that committed a feed with at
    least one department, a second run on the same feed stops at the first
    INSERT with a primary-key violation, logs it, and leaves the file
    exactly as the first run left it. *)
Theorem second_run_fails_on_primary_key
        (result : QueryResult) (d : DepartmentNode) (ds : list DepartmentNode)
        (w : World) :
  allDepartments result = Some (d :: ds) ->
  departmentsCommitted result w ->
  file (after_run result (after_run result w)) = file (after_run result w)
  /\ console (after_run result (after_run result w))
     = console (after_run result w) ++ [LogError ConstraintPrimaryKey]
  /\ openHandles (after_run result (after_run result w)) = openHandles w.
Proof.
  intros Hds Hcommit. rewrite departmentsCommitted_created in Hcommit.
  assert (Hfirst : exists depts people,
             file (after_run result w)
             = {| DEPARTMENTS := Some depts; PEOPLE := Some people |}
             /\ In (dn_id d) (map D_ID depts)
             /\ openHandles (after_run result w) = openHandles w).
  { unfold after_run. rewrite main_fetched. simpl.
    destruct (tryBlock_cases result (file w))
      as [[e [H1 _]]
         | [ds' [depts [_ [Hds' [Hdepts [Hfile [_ [_ Hpeople]]]]]]]]];
      [rewrite Hcommit in H1; discriminate|].
    assert (ds' = d :: ds) by congruence. subst ds'.
    assert (exists people,
               PEOPLE (committed (snd (Loader.tryBlock result (connect (file w)))))
               = Some people) as [people Hp].
    { destruct Hpeople as [[e [_ Hp]] | [_ [l [added [_ [Hp _]]]]]]; eauto. }
    exists depts, people. split; [|split; [|reflexivity]].
    - destruct (committed (snd (Loader.tryBlock result (connect (file w))))).
      simpl in *. congruence.
    - rewrite Hdepts, map_app. apply in_or_app. right. simpl. now left. }
  destruct Hfirst as [depts [people [Hfile [Hin Hh]]]].
  set (w1 := after_run result w) in *.
  unfold after_run. rewrite main_fetched. simpl.
  rewrite tryBlock_phases, (loadDepartments_some result (file w1) Hds).
  rewrite Hfile. simpl map.
  rewrite (insertDepartments_dup (Loader.departmentParams d)
             (map Loader.departmentParams ds)
             (created {| DEPARTMENTS := Some depts; PEOPLE := Some people |})
             (rows := depts) eq_refl eq_refl).
  - simpl. repeat split. assumption.
  - now apply has_dept_id_In.
Qed.

(** A response without the list of people: iterating [undefined] throws
    inside the people transaction, after the departments were committed.
    The TypeError is logged, the departments stay and PEOPLE is as before
    (created empty if it was absent). *)
Theorem missing_people_list_is_logged
        (result : QueryResult) (ds : list DepartmentNode) (w : World) :
  allPeople result = None ->
  allDepartments result = Some ds ->
  departmentsCommitted result w ->
  console (after_run result w) = console w ++ [LogError TypeError]
  /\ DEPARTMENTS (file (after_run result w))
     = Some (table_rows (DEPARTMENTS (file w))
             ++ map dept_row (map Loader.departmentParams ds))
  /\ PEOPLE (file (after_run result w)) = Some (table_rows (PEOPLE (file w)))
  /\ openHandles (after_run result w) = openHandles w.
Proof.
  intros Hl Hds Hcommit. rewrite departmentsCommitted_created in Hcommit.
  unfold after_run in *.
  rewrite main_fetched. simpl. rewrite tryBlock_phases.
  destruct (Loader.loadDepartments result (created (file w))) as [r1 c1] eqn:H1.
  simpl in Hcommit. subst r1. cbv iota beta.
  destruct (loadDepartments_spec _ _ H1) as [Ht1 [_ [Hp1 Hr1]]].
  destruct Hr1 as [[_ [ds' [Hds' [Hd1 _]]]] | [e [He _]]]; [|discriminate].
  assert (ds' = ds) by congruence. subst ds'.
  unfold Loader.loadPeople, bind, prepare. rewrite Hp1, Hd1, Hl. simpl.
  unfold Loader.insertPeople, transaction. rewrite Ht1.
  unfold finally, bind, throw. simpl.
  simpl. change (committed (rollback (begin c1))) with (db c1).
  rewrite Hd1, Hp1. repeat split.
Qed.

(** ** The endpoint on requests whose text stays inside the literal *)

Lemma prepare_select_safe (req : Endpoint.NextApiRequest) (c : Conn) :
  safe_request req ->
  prepare_select (Endpoint.sql req) c
  = if has_table (PEOPLE (db c)) && has_table (DEPARTMENTS (db c))
    then Some (Ok (where_of req), c)
    else Some (Throw SqliteNoTable, c).
Proof.
  intros [Hq Hn]. unfold prepare_select, Endpoint.sql, where_of, searched in *.
  destruct (Endpoint.not_empty_string (Endpoint.searchParam req)).
  - now rewrite (@parse_where_plain _ Hq Hn).
  - reflexivity.
Qed.

(** The handler on such a request, in full. *)
Lemma handler_safe (req : Endpoint.NextApiRequest) (fault : option Error)
      (w : World) :
  safe_request req ->
  Endpoint.handler req fault w
  = if has_table (PEOPLE (file w)) && has_table (DEPARTMENTS (file w))
    then
      Some {| Endpoint.completion := Returned;
              Endpoint.response :=
                Some {| Endpoint.status := 200;
                        Endpoint.json :=
                          {| Endpoint.results :=
                               match fault with
                               | None => map Endpoint.personOfRow
                                             (select_rows (where_of req) (file w))
                               | Some _ => []
                               end |} |};
              Endpoint.world :=
                {| file := file w;
                   openHandles := openHandles w;
                   console := match fault with
                              | None => console w
                              | Some e => console w ++ [LogError e]
                              end |} |}
    else
      Some {| Endpoint.completion := Thrown SqliteNoTable;
              Endpoint.response := None;
              Endpoint.world :=
                {| file := file w; openHandles := S (openHandles w);
                   console := console w |} |}.
Proof.
  intros Hsafe.
  pose proof (@prepare_select_safe req (connect (file w)) Hsafe) as Hprep.
  simpl in Hprep.
  destruct (has_table (PEOPLE (file w)) && has_table (DEPARTMENTS (file w))).
  - apply (handler_prepared req fault w Hprep).
  - unfold Endpoint.handler. now rewrite Hprep.
Qed.

Lemma select_rows_ext (f g : Where) (d : Database) :
  (forall p, where_holds f p = where_holds g p) ->
  select_rows f d = select_rows g d.
Proof.
  intros H. unfold select_rows.
  induction (table_rows (PEOPLE d)) as [|p l IH]; simpl; [reflexivity|].
  now rewrite H, IH.
Qed.

Lemma handler_same_where (req1 req2 : Endpoint.NextApiRequest)
      (fault : option Error) (w : World) :
  safe_request req1 ->
  safe_request req2 ->
  (forall p, where_holds (where_of req1) p = where_holds (where_of req2) p) ->
  Endpoint.handler req1 fault w = Endpoint.handler req2 fault w.
Proof.
  intros H1 H2 H. rewrite (@handler_safe req1 fault w H1).
  rewrite (@handler_safe req2 fault w H2).
  now rewrite (@select_rows_ext _ _ (file w) H).
Qed.

(** An error of [stmt.all()] is masked: when both tables exist, the request
    is answered 200 with an empty list, exactly as if nothing matched; the
    error is on the console only, the handle is closed and the file is as
    it was. *)
Theorem stmt_all_error_gives_empty_200
        (req : Endpoint.NextApiRequest) (e : Error) (w : World)
        (depts : list DeptRow) (people : list PersonRow) :
  safe_request req ->
  DEPARTMENTS (file w) = Some depts ->
  PEOPLE (file w) = Some people ->
  Endpoint.handler req (Some e) w
  = Some {| Endpoint.completion := Returned;
            Endpoint.response :=
              Some {| Endpoint.status := 200;
                      Endpoint.json := {| Endpoint.results := [] |} |};
            Endpoint.world :=
              {| file := file w; openHandles := openHandles w;
                 console := console w ++ [LogError e] |} |}.
Proof.
  intros Hsafe Hd Hp. rewrite (@handler_safe req (Some e) w Hsafe).
  now rewrite Hd, Hp.
Qed.

(** Before the tables exist, every such request makes [db.prepare] throw
    "no such table": no response is sent, nothing is logged, and the handle
    stays open. *)
Theorem absent_table_escapes_handler
        (req : Endpoint.NextApiRequest) (fault : option Error) (w : World) :
  safe_request req ->
  DEPARTMENTS (file w) = None \/ PEOPLE (file w) = None ->
  Endpoint.handler req fault w
  = Some {| Endpoint.completion := Thrown SqliteNoTable;
            Endpoint.response := None;
            Endpoint.world :=
              {| file := file w; openHandles := S (openHandles w);
                 console := console w |} |}.
Proof.
  intros Hsafe Hmiss. rewrite (@handler_safe req fault w Hsafe).
  destruct Hmiss as [-> | ->]; simpl; [now rewrite andb_false_r | reflexivity].
Qed.

(** ** What the search value means *)

Lemma bool_eq_iff (a b : bool) : (a = true <-> b = true) -> a = b.
Proof.
  destruct a, b; intros [H1 H2]; try reflexivity.
  - symmetry. now apply H1.
  - now apply H2.
Qed.

Lemma fold_case_empty (s : string) : fold_case s = "" -> s = "".
Proof. destruct s; [reflexivity | discriminate]. Qed.

(** The search does not see the case of letters: two values without
    wildcard and without quote that differ only in the case of letters of
    the 7-bit range get the same answer, on every file. *)
Theorem search_ignores_letter_case
        (s s' : string) (fault : option Error) (w : World) :
  fold_case s = fold_case s' ->
  no_wildcard s = true -> no_wildcard s' = true ->
  has_char quote s = false -> has_char quote s' = false ->
  has_char nul s = false -> has_char nul s' = false ->
  Endpoint.handler {| Endpoint.search := Endpoint.Single s |} fault w
  = Endpoint.handler {| Endpoint.search := Endpoint.Single s' |} fault w.
Proof.
  intros Hfold Hw Hw' Hq Hq' Hn Hn'.
  apply handler_same_where; [split; assumption | split; assumption|].
  intros p. unfold where_of, searched. simpl.
  destruct (String.eqb_spec s "") as [-> | Hne].
  - symmetry in Hfold. apply fold_case_empty in Hfold. subst s'. reflexivity.
  - destruct (String.eqb_spec s' "") as [-> | Hne'].
    + apply fold_case_empty in Hfold. contradiction.
    + simpl. apply bool_eq_iff.
      rewrite (@like_contains_nocase s (P_NAME p) Hw).
      rewrite (@like_contains_nocase s' (P_NAME p) Hw').
      unfold contains_nocase. now rewrite Hfold.
Qed.

Lemma all_percent_app (s t : string) :
  all_percent (s ++ t) = all_percent s && all_percent t.
Proof.
  induction s as [|c s IH]; simpl; [reflexivity|].
  now rewrite IH, andb_assoc.
Qed.

Lemma all_percent_has_char (a : ascii) (s : string) :
  Ascii.eqb "%"%char a = false -> all_percent s = true -> has_char a s = false.
Proof.
  intros Ha. induction s as [|c s IH]; simpl; [reflexivity|].
  intros H. apply andb_prop in H. destruct H as [Hc Hs].
  apply Ascii.eqb_eq in Hc. subst c. now rewrite Ha, IH.
Qed.

(** A pattern of one or more [%] matches every name. *)
Lemma like_all_percent (pat t : string) :
  all_percent pat = true -> pat <> "" -> like pat t = true.
Proof.
  revert t. induction pat as [|c pat IH]; intros t H Hne; [contradiction|].
  simpl in H. apply andb_prop in H. destruct H as [Hc Hp].
  apply Ascii.eqb_eq in Hc. subst c.
  destruct pat as [|c' pat']; [apply like_percent_only|].
  apply like_percent. exists EmptyString, t. split; [reflexivity|].
  apply IH; [assumption | discriminate].
Qed.

(** A search value made of percent signs only is no filter at all: the
    answer is the one given when the parameter is absent. *)
Theorem percent_search_is_no_filter
        (s : string) (fault : option Error) (w : World) :
  all_percent s = true ->
  Endpoint.handler {| Endpoint.search := Endpoint.Single s |} fault w
  = Endpoint.handler {| Endpoint.search := Endpoint.Absent |} fault w.
Proof.
  intros Hs. apply handler_same_where.
  - split; apply all_percent_has_char; auto.
  - split; reflexivity.
  - intros p. unfold where_of, searched.
    cbn [Endpoint.searchParam Endpoint.search Endpoint.not_empty_string
         Endpoint.interpolated].
    destruct (String.eqb_spec s ""); [reflexivity|].
    cbn [negb where_holds].
    apply like_all_percent; [|discriminate].
    change ("%" ++ s ++ "%")%string with (String "%" (s ++ "%")).
    cbn [all_percent]. now rewrite all_percent_app, Hs.
Qed.


(** ** The endpoint on a file with integrity *)

Lemma filter_no_department (depts : list DeptRow) (i : string) :
  ~ In i (map D_ID depts) ->
  filter (fun r => String.eqb i (D_ID r)) depts = [].
Proof.
  induction depts as [|a l IH]; intros Hnot; [reflexivity|]. simpl.
  destruct (String.eqb_spec i (D_ID a)) as [-> | _].
  - exfalso. apply Hnot. now left.
  - apply IH. intros Hin. apply Hnot. now right.
Qed.

(** With unique keys the lookup of the join finds one row. *)
Lemma filter_one_department (depts : list DeptRow) (i : string) :
  NoDup (map D_ID depts) ->
  In i (map D_ID depts) ->
  exists d, filter (fun r => String.eqb i (D_ID r)) depts = [d].
Proof.
  induction depts as [|a l IH]; intros Hnd Hin; [destruct Hin|].
  simpl in Hnd. apply NoDup_cons_iff in Hnd. destruct Hnd as [Hnotin Hnd].
  simpl. destruct (String.eqb_spec i (D_ID a)) as [-> | Hne].
  - exists a. now rewrite (@filter_no_department l (D_ID a) Hnotin).
  - destruct Hin as [E | Hin]; [congruence|]. now apply IH.
Qed.

Lemma select_rows_people (d : Database) :
  integrity d ->
  map PERSON_ID (select_rows NoWhere d) = map P_ID (table_rows (PEOPLE d))
  /\ map PERSON_NAME (select_rows NoWhere d) = map P_NAME (table_rows (PEOPLE d)).
Proof.
  intros [_ [Hnd [_ Hfk]]]. unfold select_rows.
  induction (table_rows (PEOPLE d)) as [|p l IH]; [split; reflexivity|].
  destruct IH as [IH1 IH2]; [intros q Hq; apply Hfk; now right|].
  destruct (@filter_one_department _ (P_DEPARTMENT_ID p) Hnd
              (Hfk p (or_introl eq_refl))) as [r Hr].
  cbn [flat_map]. rewrite !map_app, IH1, IH2. cbn [where_holds].
  rewrite Hr. split; reflexivity.
Qed.

Lemma handler_unfiltered_people (req : Endpoint.NextApiRequest) (w : World)
      (depts : list DeptRow) (people : list PersonRow) :
  Endpoint.sql req = "" ->
  integrity (file w) ->
  DEPARTMENTS (file w) = Some depts ->
  PEOPLE (file w) = Some people ->
  exists recs,
    Endpoint.handler req None w
    = Some {| Endpoint.completion := Returned;
              Endpoint.response :=
                Some {| Endpoint.status := 200;
                        Endpoint.json := {| Endpoint.results := recs |} |};
              Endpoint.world := w |}
    /\ map pr_id recs = map P_ID people
    /\ map pr_name recs = map P_NAME people.
Proof.
  intros Hsql Hint Hd Hp.
  exists (map Endpoint.personOfRow (select_rows NoWhere (file w))). split.
  - rewrite (handler_prepared req None w (stmt := NoWhere) (c := connect (file w))).
    + destruct w; reflexivity.
    + unfold prepare_select. rewrite Hsql. simpl. rewrite Hd, Hp. reflexivity.
  - destruct (@select_rows_people (file w) Hint) as [H1 H2]. rewrite Hp in H1, H2.
    simpl in H1, H2. rewrite !map_map. simpl. split; assumption.
Qed.

(** On a file with the integrity the schema declares, the endpoint without
    filter returns one record per row of PEOPLE, in the order of the
    table: nobody is lost by the join and nobody comes twice. *)
Theorem unfiltered_one_record_per_person
        (req : Endpoint.NextApiRequest) (w : World)
        (depts : list DeptRow) (people : list PersonRow) :
  Endpoint.search req = Endpoint.Absent
  \/ Endpoint.search req = Endpoint.Single "" ->
  integrity (file w) ->
  DEPARTMENTS (file w) = Some depts ->
  PEOPLE (file w) = Some people ->
  exists recs,
    Endpoint.handler req None w
    = Some {| Endpoint.completion := Returned;
              Endpoint.response :=
                Some {| Endpoint.status := 200;
                        Endpoint.json := {| Endpoint.results := recs |} |};
              Endpoint.world := w |}
    /\ map pr_id recs = map P_ID people
    /\ map pr_name recs = map P_NAME people.
Proof.
  intros Hsearch. apply handler_unfiltered_people.
  now apply sql_without_search.
Qed.

(** Load, then list.  After a run that ends normally on a file with
    integrity, the endpoint without filter returns the people that were in
    the table followed by the fetched people, one record each, with their
    identifiers and names, in the order of the feed. *)
Theorem loaded_people_are_listed
        (result : QueryResult) (l : list PersonRecord) (w : World) :
  integrity (file w) ->
  loaded result w ->
  allPeople result = Some l ->
  exists recs,
    Endpoint.handler {| Endpoint.search := Endpoint.Absent |} None
                     (after_run result w)
    = Some {| Endpoint.completion := Returned;
              Endpoint.response :=
                Some {| Endpoint.status := 200;
                        Endpoint.json := {| Endpoint.results := recs |} |};
              Endpoint.world := after_run result w |}
    /\ map pr_id recs
       = map P_ID (table_rows (PEOPLE (file w))) ++ map pr_id l
    /\ map pr_name recs
       = map P_NAME (table_rows (PEOPLE (file w))) ++ map pr_name l.
Proof.
  intros Hint Hloaded Hl.
  pose proof (@main_preserves_integrity (Ok result) w Hint) as Hint'.
  fold (after_run result w) in Hint'.
  assert (Hfile : exists depts added,
             DEPARTMENTS (file (after_run result w)) = Some depts
             /\ PEOPLE (file (after_run result w))
                = Some (table_rows (PEOPLE (file w)) ++ added)
             /\ map P_ID added = map pr_id l
             /\ map P_NAME added = map pr_name l).
  { unfold after_run, loaded in *. rewrite main_fetched. simpl.
    destruct (tryBlock_cases result (file w))
      as [[e [_ [Hout _]]]
         | [ds [depts [_ [_ [_ [Hd [_ [_ Hpeople]]]]]]]]];
      [rewrite Hloaded in Hout; discriminate|].
    destruct Hpeople as [[e [Hout _]] | [_ [l' [added [Hl' [Hp [Hall _]]]]]]];
      [rewrite Hloaded in Hout; discriminate|].
    assert (l' = l) by congruence. subst l'.
    destruct (stored_keys Hall) as [H1 [H2 _]]. rewrite map_map in H1, H2.
    exists depts, added. auto. }
  destruct Hfile as [depts [added [Hd [Hp [H1 H2]]]]].
  destruct (@handler_unfiltered_people
              {| Endpoint.search := Endpoint.Absent |}
              (after_run result w) _ _ eq_refl Hint' Hd Hp)
    as [recs [Hrun [Hi Hn]]].
  exists recs. split; [assumption|].
  rewrite Hi, Hn, !map_app, H1, H2. split; reflexivity.
Qed.

(** ** Order of the feed, and what a run never does *)

Lemma fk_closed_perm (rows : list DeptRow) (l l' : list DeptRow) :
  Permutation l l' -> fk_closed (rows ++ l) -> fk_closed (rows ++ l').
Proof.
  intros Hperm Hcl r q Hr Hq.
  assert (Hp : Permutation (rows ++ l) (rows ++ l'))
    by now apply Permutation_app_head.
  apply (Permutation_in _ (Permutation_map D_ID Hp)).
  apply (Hcl r q); [|assumption].
  apply (Permutation_in _ (Permutation_sym Hp)). assumption.
Qed.

(** On a table that was consistent before the run (every PARENT the ID of
    a row), the deferred foreign key makes the order of the feed
    irrelevant: whether the departments transaction commits is the same
    for a feed and for any reordering of it, children before parents
    included. *)
Theorem commit_ignores_feed_order
        (result result' : QueryResult) (ds ds' : list DepartmentNode)
        (w : World) :
  fk_closed (table_rows (DEPARTMENTS (file w))) ->
  allDepartments result = Some ds ->
  allDepartments result' = Some ds' ->
  Permutation ds ds' ->
  departmentsCommitted result w <-> departmentsCommitted result' w.
Proof.
  assert (Hone : forall r r' l l',
             fk_closed (table_rows (DEPARTMENTS (file w))) ->
             allDepartments r = Some l -> allDepartments r' = Some l' ->
             Permutation l l' ->
             departmentsCommitted r w -> departmentsCommitted r' w).
  { intros r r' l l' Hcl Hl Hl' Hperm Hc.
    apply (@departmentsCommitted_params r l w Hcl Hl) in Hc.
    apply (@departmentsCommitted_params r' l' w Hcl Hl').
    assert (Hp : Permutation (map Loader.departmentParams l)
                             (map Loader.departmentParams l'))
      by now apply Permutation_map.
    destruct Hc as [Hnd [Hfresh Hclosed]]. repeat split.
    - apply (Permutation_NoDup (Permutation_map dp_id Hp) Hnd).
    - intros p Hin. apply Hfresh.
      apply (Permutation_in _ (Permutation_sym Hp) Hin).
    - apply (@fk_closed_perm _ (map dept_row (map Loader.departmentParams l)));
        [|assumption].
      now apply Permutation_map. }
  intros Hcl Hds Hds' Hperm. split.
  - now apply (Hone result result' ds ds').
  - apply (Hone result' result ds' ds); auto. now apply Permutation_sym.
Qed.

(** The condition on the table is needed: on the stale table the feed that
    lists Ghost first commits, and the same feed with Ghost last fails at
    COMMIT. *)
Lemma feed_order_matters_on_stale_table :
  departmentsCommitted feed_ghost stale_world
  /\ fst (Loader.tryBlock feed_ghost_last (connect (file stale_world)))
     = Throw ConstraintForeignKey.
Proof. split; reflexivity. Qed.

(** A run never removes or changes a row: however the query and the run
    end, both tables hold afterwards what they held before, followed by
    the rows that were committed. *)
Theorem run_only_appends (fetched : Result QueryResult) (w : World) :
  exists departments people,
    table_rows (DEPARTMENTS (file (snd (Loader.main fetched w))))
    = table_rows (DEPARTMENTS (file w)) ++ departments
    /\ table_rows (PEOPLE (file (snd (Loader.main fetched w))))
       = table_rows (PEOPLE (file w)) ++ people.
Proof.
  destruct fetched as [result|e].
  - rewrite main_fetched. simpl.
    destruct (tryBlock_cases result (file w))
      as [[e [_ [_ Hfile]]]
         | [ds [depts [_ [_ [Hdepts [Hfile [_ [_ Hpeople]]]]]]]]].
    + exists [], []. rewrite Hfile. simpl. now rewrite !app_nil_r.
    + rewrite Hfile, Hdepts. simpl.
      exists (map dept_row (map Loader.departmentParams ds)).
      destruct Hpeople as [[e [_ Hp]] | [_ [l [added [_ [Hp _]]]]]];
        rewrite Hp; simpl.
      * exists []. now rewrite app_nil_r.
      * exists added. split; reflexivity.
  - exists [], []. simpl. now rewrite !app_nil_r.
Qed.

(** A filter only takes away: whatever a request with a search value
    returns is among what the request without one returns. *)
Theorem filtered_results_are_unfiltered_results
        (req : Endpoint.NextApiRequest) (w : World)
        (depts : list DeptRow) (people : list PersonRow) :
  safe_request req ->
  DEPARTMENTS (file w) = Some depts ->
  PEOPLE (file w) = Some people ->
  exists recs all_recs,
    Endpoint.handler req None w
    = Some {| Endpoint.completion := Returned;
              Endpoint.response :=
                Some {| Endpoint.status := 200;
                        Endpoint.json := {| Endpoint.results := recs |} |};
              Endpoint.world := w |}
    /\ Endpoint.handler {| Endpoint.search := Endpoint.Absent |} None w
       = Some {| Endpoint.completion := Returned;
                 Endpoint.response :=
                   Some {| Endpoint.status := 200;
                           Endpoint.json := {| Endpoint.results := all_recs |} |};
                 Endpoint.world := w |}
    /\ forall rec, In rec recs -> In rec all_recs.
Proof.
  intros Hsafe Hd Hp.
  exists (map Endpoint.personOfRow (select_rows (where_of req) (file w))),
         (map Endpoint.personOfRow (select_rows NoWhere (file w))).
  split; [|split].
  - rewrite (@handler_safe req None w Hsafe), Hd, Hp. simpl.
    destruct w; reflexivity.
  - rewrite (@handler_safe {| Endpoint.search := Endpoint.Absent |} None w);
      [|split; reflexivity].
    rewrite Hd, Hp. simpl. destruct w; reflexivity.
  - intros rec Hin. apply in_map_iff in Hin. destruct Hin as [row [<- Hin]].
    apply in_map. apply select_rows_In in Hin.
    destruct Hin as [p [r [H1 [H2 [H3 [_ H4]]]]]].
    apply select_rows_In. exists p, r. auto.
Qed.

(** ** The further properties at the sample data *)

Lemma integrity_empty_file : integrity empty_file.
Proof.
  repeat split; simpl; try apply NoDup_nil.
  - intros r q [].
  - intros p [].
Qed.

Lemma integrity_one_person_file : integrity one_person_file.
Proof.
  repeat split; simpl.
  - intros r q [<- | []] H. discriminate.
  - constructor; [intros [] | constructor].
  - constructor; [intros [] | constructor].
  - intros p [<- | []]. left. reflexivity.
Qed.

Lemma departments_commit_iff_witness :
  NoDup (map dn_id [engineering; sales; hq]).
Proof.
  destruct (proj1 (@departments_commit_iff feed [engineering; sales; hq] fresh
                     (fun r q (H : In r []) => match H with end) eq_refl)
                  eq_refl) as [H _].
  exact H.
Defined.

Lemma commit_ignores_feed_order_witness :
  departmentsCommitted feed fresh <-> departmentsCommitted feed_parent_first fresh.
Proof.
  apply (@commit_ignores_feed_order feed feed_parent_first
           [engineering; sales; hq] [hq; engineering; sales] fresh).
  - intros r q [].
  - reflexivity.
  - reflexivity.
  - apply perm_trans with [engineering; hq; sales].
    + apply perm_skip. apply perm_swap.
    + apply perm_swap.
Defined.

Lemma run_succeeds_iff_witness : NoDup (map pr_id [bob; anna]).
Proof.
  destruct (proj1 (@run_succeeds_iff feed [bob; anna] fresh eq_refl eq_refl)
                  eq_refl) as [H _].
  exact H.
Defined.

Lemma people_transaction_atomic_witness :
  (loaded feed fresh
   /\ exists added,
       PEOPLE (file (after_run feed fresh)) = Some ([] ++ added)
       /\ map P_ID added = map pr_id [bob; anna]
       /\ map P_NAME added = map pr_name [bob; anna]
       /\ map P_AVATAR_URL added
          = map (fun p => pp_avatar_url (Loader.personParams p)) [bob; anna])
  \/ (~ loaded feed fresh
      /\ PEOPLE (file (after_run feed fresh)) = Some []).
Proof.
  exact (@people_transaction_atomic feed [bob; anna] fresh eq_refl).
Defined.

Lemma departments_stay_when_people_fail_witness :
  DEPARTMENTS (file (after_run feed_unmatched fresh))
  = Some ([] ++ map dept_row
                    (map Loader.departmentParams [engineering; sales; hq])).
Proof.
  apply (@departments_stay_when_people_fail feed_unmatched
           [engineering; sales; hq] fresh).
  - reflexivity.
  - reflexivity.
  - intros H. vm_compute in H. discriminate.
Defined.

Lemma second_run_fails_on_primary_key_witness :
  console (after_run feed (after_run feed fresh))
  = console (after_run feed fresh) ++ [LogError ConstraintPrimaryKey].
Proof.
  apply (@second_run_fails_on_primary_key feed engineering [sales; hq] fresh).
  - reflexivity.
  - reflexivity.
Defined.

Lemma missing_people_list_is_logged_witness :
  console (after_run feed_without_people fresh) = [] ++ [LogError TypeError].
Proof.
  apply (@missing_people_list_is_logged feed_without_people
           [engineering; sales; hq] fresh).
  - reflexivity.
  - reflexivity.
  - reflexivity.
Defined.

Lemma reachable_integrity_witness : integrity (file (after_run feed fresh)).
Proof.
  apply reachable_integrity. unfold after_run. apply reach_main.
  apply reach_start. reflexivity.
Defined.

Lemma stmt_all_error_gives_empty_200_witness :
  option_map Endpoint.response
    (Endpoint.handler {| Endpoint.search := Endpoint.Single "an" |}
                      (Some SqliteRuntime) one_person_world)
  = Some (Some {| Endpoint.status := 200;
                  Endpoint.json := {| Endpoint.results := [] |} |}).
Proof.
  rewrite (@stmt_all_error_gives_empty_200
             {| Endpoint.search := Endpoint.Single "an" |} SqliteRuntime
             one_person_world _ _ (conj eq_refl eq_refl) eq_refl eq_refl).
  reflexivity.
Defined.

Lemma absent_table_escapes_handler_witness :
  option_map Endpoint.completion
    (Endpoint.handler {| Endpoint.search := Endpoint.Single "an" |} None fresh)
  = Some (Thrown SqliteNoTable).
Proof.
  rewrite (@absent_table_escapes_handler
             {| Endpoint.search := Endpoint.Single "an" |} None fresh
             (conj eq_refl eq_refl) (or_introl eq_refl)).
  reflexivity.
Defined.


Lemma search_ignores_letter_case_witness :
  Endpoint.handler {| Endpoint.search := Endpoint.Single "bo" |} None
                   one_person_world
  = Endpoint.handler {| Endpoint.search := Endpoint.Single "BO" |} None
                     one_person_world.
Proof.
  apply search_ignores_letter_case; reflexivity.
Defined.

Lemma percent_search_is_no_filter_witness :
  Endpoint.handler {| Endpoint.search := Endpoint.Single "%%" |} None
                   one_person_world
  = Endpoint.handler {| Endpoint.search := Endpoint.Absent |} None
                     one_person_world.
Proof.
  apply percent_search_is_no_filter. reflexivity.
Defined.

Lemma filtered_results_are_unfiltered_results_witness :
  exists recs all_recs,
    Endpoint.handler {| Endpoint.search := Endpoint.Single "o" |} None
                     one_person_world
    = Some {| Endpoint.completion := Returned;
              Endpoint.response :=
                Some {| Endpoint.status := 200;
                        Endpoint.json := {| Endpoint.results := recs |} |};
              Endpoint.world := one_person_world |}
    /\ forall rec, In rec recs -> In rec all_recs.
Proof.
  destruct (@filtered_results_are_unfiltered_results
              {| Endpoint.search := Endpoint.Single "o" |} one_person_world
              [{| D_ID := "d1"; D_NAME := "Engineering"; D_PARENT := None |}]
              [{| P_ID := "p1"; P_NAME := "Bob"; P_AVATAR_URL := None;
                  P_DEPARTMENT_ID := "d1" |}]
              (conj eq_refl eq_refl) eq_refl eq_refl)
    as [recs [all_recs [H [_ Hsub]]]].
  exists recs, all_recs. split; assumption.
Defined.

Lemma unfiltered_one_record_per_person_witness :
  exists recs,
    Endpoint.handler {| Endpoint.search := Endpoint.Absent |} None
                     one_person_world
    = Some {| Endpoint.completion := Returned;
              Endpoint.response :=
                Some {| Endpoint.status := 200;
                        Endpoint.json := {| Endpoint.results := recs |} |};
              Endpoint.world := one_person_world |}
    /\ map pr_id recs = ["p1"].
Proof.
  destruct (@unfiltered_one_record_per_person
              {| Endpoint.search := Endpoint.Absent |} one_person_world
              [{| D_ID := "d1"; D_NAME := "Engineering"; D_PARENT := None |}]
              [{| P_ID := "p1"; P_NAME := "Bob"; P_AVATAR_URL := None;
                  P_DEPARTMENT_ID := "d1" |}]
              (or_introl eq_refl) integrity_one_person_file eq_refl eq_refl)
    as [recs [H [Hid _]]].
  exists recs. split; assumption.
Defined.

Lemma loaded_people_are_listed_witness :
  exists recs,
    Endpoint.handler {| Endpoint.search := Endpoint.Absent |} None
                     (after_run feed fresh)
    = Some {| Endpoint.completion := Returned;
              Endpoint.response :=
                Some {| Endpoint.status := 200;
                        Endpoint.json := {| Endpoint.results := recs |} |};
              Endpoint.world := after_run feed fresh |}
    /\ map pr_id recs = ["p1"; "p2"].
Proof.
  destruct (@loaded_people_are_listed feed [bob; anna] fresh
              integrity_empty_file eq_refl eq_refl)
    as [recs [H [Hid _]]].
  exists recs. split; assumption.
Defined.
